(** * catboost/datasets.py: cached, integrity-checked dataset retrieval

    A shallow embedding of [catboost/python-package/catboost/datasets.py]
    together with a small model of the parts of the Python runtime it
    drives (file system, working directory, network transfers, exceptions),
    and the properties of the download/cache helpers proved over it.

    Python 3 semantics are modelled: [IOError] is an alias of [OSError] and
    [urllib.error.URLError] is a subclass of [OSError].  The [logger.debug]
    calls only write to the logging subsystem, which is not part of the
    modelled world. *)

From Stdlib Require Import Ascii String.
From stdpp Require Import gmap strings list fin_maps sorting.

Local Open Scope string_scope.

(** ** Python values and exceptions *)

Inductive pyval :=
| PStr (s : string)
| PTuple (l : list string)
| PList (l : list string).

Inductive exn_class :=
| OSError          (* also IOError, FileExistsError, IsADirectoryError, ... *)
| URLError         (* urllib.error.URLError, a subclass of OSError *)
| AttributeError
| RuntimeError
| TypeError
| ValueError
| ReadError        (* tarfile.ReadError *)
| ParserError.     (* pandas.errors.ParserError *)

Record exn := Exn { exn_cls : exn_class; exn_args : list pyval }.

#[global] Instance pyval_eq_dec : EqDecision pyval.
Proof. solve_decision. Defined.
#[global] Instance exn_class_eq_dec : EqDecision exn_class.
Proof. solve_decision. Defined.
#[global] Instance exn_eq_dec : EqDecision exn.
Proof. solve_decision. Defined.

(** [issubclass c base] for the classes above. *)
Definition issubclass (c base : exn_class) : bool :=
  match c, base with
  | URLError, OSError => true
  | _, _ => bool_decide (c = base)
  end.

Definition isinstance (e : exn) (base : exn_class) : bool :=
  issubclass (exn_cls e) base.

(** ** The world: file system, working directory, network *)

Inductive node :=
| File (data : string)
| Dir.

(** Outcome of one [urlretrieve] call as decided by the remote side: either
    the whole body is served, or the transfer fails with [e], possibly after
    [partial] was already written to the destination. *)
Inductive transfer :=
| Served (body : string)
| Failed (e : exn) (partial : option string).

(** Paths are plain strings and the file system is a finite map from
    absolute paths to nodes.  Paths are not normalised (the components [.]
    and [..] and doubled separators are not interpreted) and links are not
    modelled.  Every entry belongs to the user of the process, who is not
    the superuser.  [modes] holds the permission bits of the paths whose
    mode has been set with [chmod]; a path without an entry has the mode it
    was created with, which gives its owner full access. *)
Record world := World {
  fs : gmap string node;
  cwd : string;
  net : nat → string → transfer;      (* answer to the n-th request, by URL *)
  requests : list string;             (* URLs requested so far, oldest first *)
  mkdir_fault : string → option exn;  (* why a directory cannot be created *)
  tmp_seq : list string;              (* names the temp-name generator yields *)
  modes : gmap string N;              (* permission bits set by chmod *)
}.

Definition set_fs (f : gmap string node → gmap string node) (w : world) : world :=
  World (f (fs w)) (cwd w) (net w) (requests w) (mkdir_fault w) (tmp_seq w) (modes w).

Definition set_cwd (d : string) (w : world) : world :=
  World (fs w) d (net w) (requests w) (mkdir_fault w) (tmp_seq w) (modes w).

Definition log_request (u : string) (w : world) : world :=
  World (fs w) (cwd w) (net w) (requests w ++ [u]) (mkdir_fault w) (tmp_seq w) (modes w).

Definition set_tmp_seq (l : list string) (w : world) : world :=
  World (fs w) (cwd w) (net w) (requests w) (mkdir_fault w) l (modes w).

Definition set_mode (p : string) (mode : N) (w : world) : world :=
  World (fs w) (cwd w) (net w) (requests w) (mkdir_fault w) (tmp_seq w)
    (<[p := mode]> (modes w)).

(** ** Computations that may raise

    A raised exception keeps the world as it was when it was raised: effects
    performed before the [raise] persist. *)

Inductive result (A : Type) :=
| Ok (a : A)
| Raise (e : exn).
Arguments Ok {A} a.
Arguments Raise {A} e.

Definition M (A : Type) : Type := world → result A * world.

Definition ret {A} (a : A) : M A := λ w, (Ok a, w).

Definition raise {A} (e : exn) : M A := λ w, (Raise e, w).

Definition bind {A B} (m : M A) (k : A → M B) : M B :=
  λ w, match m w with
       | (Ok a, w1) => k a w1
       | (Raise e, w1) => (Raise e, w1)
       end.

Definition gets {A} (f : world → A) : M A := λ w, (Ok (f w), w).

Definition modify (f : world → world) : M unit := λ w, (Ok tt, f w).

Declare Scope py_scope.
Delimit Scope py_scope with py.
Notation "x <- m ;; k" := (bind m (λ x, k))
  (at level 20, m at level 99, k at level 200) : py_scope.
Notation "m ;; k" := (bind m (λ _, k))
  (at level 100, k at level 200, right associativity) : py_scope.
Local Open Scope py_scope.

(** [try: body except <classes>: handler].  As in Python, the expression
    naming the handled classes is evaluated only once an exception reaches
    the clause, and it may itself raise. *)
Definition try_except {A} (body : M A) (classes : M (exn → bool))
    (handler : exn → M A) : M A :=
  λ w, match body w with
       | (Ok a, w1) => (Ok a, w1)
       | (Raise e, w1) =>
           match classes w1 with
           | (Ok handles, w2) =>
               if handles e then handler e w2 else (Raise e, w2)
           | (Raise e', w2) => (Raise e', w2)
           end
       end.

(** [try: body finally: cleanup].  An exception of [cleanup] replaces the
    outcome of [body]. *)
Definition try_finally {A} (body : M A) (cleanup : M unit) : M A :=
  λ w, match body w with
       | (r, w1) =>
           match cleanup w1 with
           | (Ok _, w2) => (r, w2)
           | (Raise e, w2) => (Raise e, w2)
           end
       end.

(** ** [os] and [os.path] *)

Definition is_abs (p : string) : bool :=
  match p with
  | String "/"%char _ => true
  | _ => false
  end.

Definition ends_with_sep (p : string) : bool :=
  match String.get (String.length p - 1) p with
  | Some "/"%char => true
  | _ => false
  end.

(** [os.path.join a b] (posixpath). *)
Definition os_path_join (a b : string) : string :=
  if is_abs b then b
  else if bool_decide (a = EmptyString) || ends_with_sep a then a +:+ b
  else a +:+ "/" +:+ b.

(** The absolute path a system call sees for [p]. *)
Definition resolve (w : world) (p : string) : string :=
  if bool_decide (p = ".") then cwd w else os_path_join (cwd w) p.

Definition os_error (msg path : string) : exn :=
  Exn OSError [PStr msg; PStr path].

(** The proper ancestors of a path, outermost first and the root left out:
    [/a] and [/a/b] for [/a/b/c]. *)
Fixpoint ancestors_from (seen rest : string) : list string :=
  match rest with
  | EmptyString => []
  | String c rest' =>
      (if Ascii.eqb c "/" && negb (bool_decide (seen = EmptyString))
          && negb (ends_with_sep seen)
       then [seen] else [])
      ++ ancestors_from (seen +:+ String c EmptyString) rest'
  end.

Definition ancestors (p : string) : list string := ancestors_from EmptyString p.

(** The directory an entry lives in; [None] for an entry of the root. *)
Definition parent_dir (p : string) : option string := last (ancestors p).

(** Permission bits of the owner: search (execute) is [0o100], write is
    [0o200]. *)
Definition mode_bit (bit : N) (w : world) (p : string) : bool :=
  match modes w !! p with
  | Some mode => N.testbit mode bit
  | None => true
  end.

Definition searchable : world → string → bool := mode_bit 6.
Definition writable : world → string → bool := mode_bit 7.

(** A directory can be entered when it and all its ancestors can be
    searched. *)
Definition reachable (w : world) (p : string) : bool :=
  forallb (searchable w) (ancestors p) && searchable w p.

(** An entry can be unlinked when the directories on its path can be
    searched and the one it lives in can be written. *)
Definition may_unlink (w : world) (p : string) : bool :=
  forallb (searchable w) (ancestors p)
  && match parent_dir p with
     | Some d => writable w d
     | None => true
     end.

(** [os.getcwd()]: fails when the working directory no longer exists. *)
Definition os_getcwd : M string :=
  λ w, match fs w !! cwd w with
       | Some Dir => (Ok (cwd w), w)
       | _ => (Raise (os_error "No such file or directory" (cwd w)), w)
       end.

(** [os.chdir(p)]: the target must be a directory that can be entered. *)
Definition os_chdir (p : string) : M unit :=
  λ w, match fs w !! resolve w p with
       | Some Dir =>
           if reachable w (resolve w p) then (Ok tt, set_cwd (resolve w p) w)
           else (Raise (os_error "Permission denied" p), w)
       | Some (File _) => (Raise (os_error "Not a directory" p), w)
       | None => (Raise (os_error "No such file or directory" p), w)
       end.

Definition os_path_isfile (p : string) : M bool :=
  gets (λ w, match fs w !! resolve w p with Some (File _) => true | _ => false end).

Definition os_path_isdir (p : string) : M bool :=
  gets (λ w, match fs w !! resolve w p with Some Dir => true | _ => false end).

Definition os_path_exists (p : string) : M bool :=
  gets (λ w, match fs w !! resolve w p with Some _ => true | None => false end).

(** [os.mkdir(p)] for an absolute [p]: refused when the entry exists, when
    its parent is a regular file, or when the system says so
    ([mkdir_fault]). *)
Definition os_mkdir (p : string) : M unit :=
  λ w, match fs w !! p with
       | Some _ => (Raise (os_error "File exists" p), w)
       | None =>
           match parent_dir p ≫= (λ d, fs w !! d) with
           | Some (File _) => (Raise (os_error "Not a directory" p), w)
           | _ =>
               match mkdir_fault w p with
               | Some e => (Raise e, w)
               | None => (Ok tt, set_fs (insert p Dir) w)
               end
           end
       end.

(** The recursion of [os.makedirs] on the head of the path: every ancestor
    that does not exist is made, outermost first. *)
Fixpoint mkdir_missing (dirs : list string) : M unit :=
  match dirs with
  | [] => ret tt
  | d :: rest =>
      present <- gets (λ w, bool_decide (is_Some (fs w !! d))) ;;
      (if present : bool then ret tt else os_mkdir d) ;;
      mkdir_missing rest
  end.

(** [os.makedirs(p)]: the missing ancestors are made, then the directory
    itself.  An existing entry gives [FileExistsError]; it is looked for
    first, which is the same on a file system: what exists has all its
    ancestors, so none is made before the error. *)
Definition os_makedirs (p : string) : M unit :=
  λ w, match fs w !! resolve w p with
       | Some _ => (Raise (os_error "File exists" p), w)
       | None =>
           (mkdir_missing (ancestors (resolve w p)) ;;
            os_mkdir (resolve w p)) w
       end.

(** [os.remove(p)]: a regular file is unlinked from its directory, which
    must be writable. *)
Definition os_remove (p : string) : M unit :=
  λ w, match fs w !! resolve w p with
       | Some (File _) =>
           if may_unlink w (resolve w p)
           then (Ok tt, set_fs (delete (resolve w p)) w)
           else (Raise (os_error "Permission denied" p), w)
       | Some Dir => (Raise (os_error "Is a directory" p), w)
       | None => (Raise (os_error "No such file or directory" p), w)
       end.

(** [os.chmod(p, mode)], as [tarfile] calls it: a failure is not reported,
    the mode is set when the entry can be reached. *)
Definition os_chmod (p : string) (mode : N) : M unit :=
  λ w, if forallb (searchable w) (ancestors (resolve w p))
       then (Ok tt, set_mode (resolve w p) mode w)
       else (Ok tt, w).

(** [open(p, 'rb').read()] *)
Definition read_file (p : string) : M string :=
  λ w, match fs w !! resolve w p with
       | Some (File data) => (Ok data, w)
       | Some Dir => (Raise (os_error "Is a directory" p), w)
       | None => (Raise (os_error "No such file or directory" p), w)
       end.

(** [open(p, 'wb').write(data)] *)
Definition write_file (p data : string) : M unit :=
  λ w, match fs w !! resolve w p with
       | Some Dir => (Raise (os_error "Is a directory" p), w)
       | _ => (Ok tt, set_fs (insert (resolve w p) (File data)) w)
       end.

(** ** External libraries

    The pure functions of [hashlib], [tarfile] and [pandas] that the module
    relies on but does not define. *)

(** The members of an archive: regular files, and directories with their
    permission bits.  (Link members and the mode, owner and times of regular
    files are left out.) *)
Inductive member :=
| MFile (name data : string)
| MDir (name : string) (mode : N).

(** The order of two directory members by name, descending. *)
Definition name_ge (a b : string * N) : Prop := String.leb b.1 a.1 = true.

#[global] Instance name_ge_dec a b : Decision (name_ge a b).
Proof. unfold name_ge. apply _. Defined.

Class Extern := {
  (** [hashlib.md5(data).hexdigest()] *)
  md5_hexdigest : string → string;
  (** the members of a gzip-compressed tar stream, in order, and the error
      that ends the reading when the stream is not a well-formed archive *)
  tar_gz_decode : string → list member * option exn;
  (** the records of a delimited text file for a separator, each a list of
      fields; [None] when the text cannot be tokenised *)
  csv_records : string → string → option (list (list string));
  (** whether a field reads as a number *)
  is_numeric : string → bool;
}.

(** ** [_extract] *)

Section extract.
Context `{Extern}.

(** [tarfile.open(src, 'r:gz')] *)
Definition tarfile_open (src : string) : M (list member * option exn) :=
  data <- read_file src ;;
  ret (tar_gz_decode data).

Definition member_name (m : member) : string :=
  match m with
  | MFile name _ => name
  | MDir name _ => name
  end.

(** Extraction of one member below the working directory, as
    [TarFile._extract_member] does it: the missing directories above the
    target are made first; then a regular file is written, and a directory
    is made unless an entry is already there (the [FileExistsError] of
    [mkdir] is passed over).  A directory that is made gives its owner full
    access until the modes are set. *)
Definition extract_member (m : member) : M unit :=
  target <- gets (λ w, resolve w (member_name m)) ;;
  mkdir_missing (ancestors target) ;;
  match m with
  | MFile name data => write_file name data
  | MDir _ _ =>
      present <- gets (λ w, bool_decide (is_Some (fs w !! target))) ;;
      if present : bool then ret tt else os_mkdir target
  end.

Fixpoint extract_members (ms : list member) : M unit :=
  match ms with
  | [] => ret tt
  | m :: rest => extract_member m ;; extract_members rest
  end.

(** The directory members, by name in descending order, as [extractall]
    sorts them ([directories.sort(key=lambda a: a.name, reverse=True)]). *)
Definition dir_members (ms : list member) : list (string * N) :=
  merge_sort name_ge
    (omap (λ m, match m with
                | MDir name mode => Some (name, mode)
                | MFile _ _ => None
                end) ms).

Fixpoint set_dir_modes (dirs : list (string * N)) : M unit :=
  match dirs with
  | [] => ret tt
  | (name, mode) :: rest => os_chmod name mode ;; set_dir_modes rest
  end.

(** [f.extractall()]: every member is extracted, then the modes of the
    directory members are set.  An error while the archive is read ends the
    call before that. *)
Definition extractall (f : list member * option exn) : M unit :=
  extract_members (fst f) ;;
  match snd f with
  | Some e => raise e
  | None => set_dir_modes (dir_members (fst f))
  end.

Definition _extract (src_file dst_dir : string) : M unit :=
  cur_dir <- os_getcwd ;;
  os_chdir dst_dir ;;
  try_finally
    (f <- tarfile_open src_file ;; extractall f)
    (os_chdir cur_dir).

(** ** [_calc_md5] *)

Definition BLOCK : nat := 64 * 1024.

(** The read loop: [block = f.read(65536)] until the block is empty, each
    block fed to the hasher, whose state is the data seen so far.  [fuel]
    bounds the number of reads. *)
Fixpoint md5_read_loop (fuel : nat) (unread hasher : string) : string :=
  match fuel with
  | 0 => hasher
  | S fuel' =>
      let block := substring 0 BLOCK unread in
      if bool_decide (block = EmptyString) then hasher
      else md5_read_loop fuel'
             (substring BLOCK (String.length unread - BLOCK) unread)
             (hasher +:+ block)
  end.

Definition _calc_md5 (path : string) : M string :=
  data <- read_file path ;;
  ret (md5_hexdigest (md5_read_loop (S (String.length data)) data EmptyString)).

End extract.

(** ** [_ensure_dir_exists] *)

Definition _ensure_dir_exists (path : string) : M unit :=
  try_except (os_makedirs path)
    (ret (λ e, isinstance e OSError))
    (λ e, isdir <- os_path_isdir path ;;
          if negb isdir then raise e else ret tt).

(** ** [_cached_download] *)

(** [urlretrieve(u, dst, reporthook)]: the request is made, then what was
    transferred is written to [dst]. *)
Definition urlretrieve (u dst : string) : M unit :=
  n <- gets (λ w, length (requests w)) ;;
  answer <- gets (λ w, net w n u) ;;
  modify (log_request u) ;;
  match answer with
  | Served body => write_file dst body
  | Failed e None => raise e
  | Failed e (Some data) => write_file dst data ;; raise e
  end.

(** What the name [urllib] is bound to by [import urllib] once
    [urllib.request] has been imported: the package object, whose attributes
    are its loaded submodules.  The package's [__init__] binds no other name;
    the exception class is [urllib.error.URLError]. *)
Inductive pyattr :=
| Submodule (name : string)
| ExnClass (c : exn_class).

Definition urllib_namespace : list (string * pyattr) :=
  [("error", Submodule "urllib.error");
   ("parse", Submodule "urllib.parse");
   ("request", Submodule "urllib.request");
   ("response", Submodule "urllib.response")].

Fixpoint assoc {A} (k : string) (l : list (string * A)) : option A :=
  match l with
  | [] => None
  | (k', a) :: rest => if bool_decide (k = k') then Some a else assoc k rest
  end.

Definition getattr_urllib (name : string) : M pyattr :=
  match assoc name urllib_namespace with
  | Some a => ret a
  | None =>
      raise (Exn AttributeError
               [PStr ("module 'urllib' has no attribute '" +:+ name +:+ "'")])
  end.

(** The handler's class tuple [(urllib.URLError, IOError)]. *)
Definition except_URLError_IOError : M (exn → bool) :=
  a <- getattr_urllib "URLError" ;;
  match a with
  | ExnClass c => ret (λ e, isinstance e c || isinstance e OSError)
  | Submodule _ =>
      raise (Exn TypeError
               [PStr "catching classes that do not inherit from BaseException is not allowed"])
  end.

(** The class tuple the handler would denote were both names bound to the
    exception classes: [(urllib.error.URLError, IOError)]. *)
Definition except_error_URLError_IOError : M (exn → bool) :=
  ret (λ e, isinstance e URLError || isinstance e OSError).

Inductive url_arg :=
| UStr (u : string)
| UList (l : list string)
| UTuple (l : list string).

(** [url if isinstance(url, list) or isinstance(url, tuple) else (url, )] *)
Definition urls_of (url : url_arg) : pyval :=
  match url with
  | UStr u => PTuple [u]
  | UList l => PList l
  | UTuple l => PTuple l
  end.

(** The items a [for] loop draws from a value. *)
Definition iter (v : pyval) : list string :=
  match v with
  | PStr s => (λ c, String c EmptyString) <$> list_ascii_of_string s
  | PTuple l => l
  | PList l => l
  end.

(** ['md5 sum mismatch; expected {expected}, but got {got}'.format(...)] *)
Definition md5_mismatch (md5 dst_md5 : string) : exn :=
  Exn RuntimeError
    [PStr ("md5 sum mismatch; expected " +:+ md5 +:+ ", but got " +:+ dst_md5)].

Section download.
Context `{Extern}.

(** The class tuple of the [except] clause in the loop. *)
Variable classes : M (exn → bool).

(** [for u in urls: try: urlretrieve(u, dst); break  except ...: pass];
    the result tells whether the loop ended by [break]. *)
Fixpoint download_loop (urls : list string) (dst : string) : M bool :=
  match urls with
  | [] => ret false
  | u :: rest =>
      done <- try_except (urlretrieve u dst ;; ret true) classes
                (λ _, ret false) ;;
      if done : bool then ret true else download_loop rest dst
  end.

Definition cached_download_with (url : url_arg) (md5 dst : string) : M unit :=
  isfile <- os_path_isfile dst ;;
  cached <- (if isfile : bool
             then dst_md5 <- _calc_md5 dst ;; ret (bool_decide (dst_md5 = md5))
             else ret false) ;;
  if cached : bool then ret tt
  else
    let urls := urls_of url in
    done <- download_loop (iter urls) dst ;;
    (if done : bool then ret tt
     else raise (Exn RuntimeError [PStr "failed to download from %s"; urls])) ;;
    dst_md5 <- _calc_md5 dst ;;
    if bool_decide (dst_md5 ≠ md5)
    then raise (md5_mismatch md5 dst_md5)
    else ret tt.

End download.

Definition _cached_download `{Extern} : url_arg → string → string → M unit :=
  cached_download_with except_URLError_IOError.

(** ** [tempfile.mkstemp] *)

Definition TMP_MAX : nat := 100 * 100.

(** Candidate names are tried in turn until one is free; the file is created
    empty under the system temp directory and its absolute path returned.
    (The descriptor that comes with it is closed at once by the caller and is
    not modelled.) *)
Fixpoint mkstemp_inner (names : list string) : M string :=
  match names with
  | [] => raise (os_error "No usable temporary file name found" "/tmp")
  | name :: rest =>
      let file := "/tmp/tmp" +:+ name in
      λ w, match fs w !! file with
           | None => (Ok file, set_tmp_seq rest (set_fs (insert file (File EmptyString)) w))
           | Some _ => mkstemp_inner rest w
           end
  end.

Definition tempfile_mkstemp : M string :=
  names <- gets tmp_seq ;;
  mkstemp_inner (take TMP_MAX names).

(** ** [pandas] tables *)

Inductive cell :=
| CNaN
| CNum (literal : string)
| CStr (s : string).

Inductive label :=
| LName (s : string)
| LPos (i : nat).

#[global] Instance cell_eq_dec : EqDecision cell.
Proof. solve_decision. Defined.
#[global] Instance label_eq_dec : EqDecision label.
Proof. solve_decision. Defined.

(** A table: its columns in order, each a label and the values of its rows. *)
Abbreviation DataFrame := (list (label * list cell)).

Inductive header_arg :=
| header_infer
| header_None.

Record csv_opts := CsvOpts {
  names : option (list string);
  header : header_arg;
  sep : string;
  na_values : list string;
  skiprows : nat;
}.

(** The strings [read_csv] takes for a missing value by default. *)
Definition default_na : list string :=
  [EmptyString; "#N/A"; "#N/A N/A"; "#NA"; "-1.#IND"; "-1.#QNAN"; "-NaN"; "-nan";
   "1.#IND"; "1.#QNAN"; "N/A"; "NA"; "NULL"; "NaN"; "n/a"; "nan"; "null"].

Definition is_na (na : list string) (s : string) : bool :=
  bool_decide (s ∈ (na ++ default_na)%list).

Definition np_float : bool := true.
Definition np_object : bool := false.

Section pandas.
Context `{Extern}.

(** The values of one column: numbers when every present field reads as a
    number, text otherwise; missing fields are NaN either way. *)
Definition column_cells (na : list string) (fields : list string) : list cell :=
  if forallb (λ s, is_na na s || is_numeric s) fields
  then (λ s, if is_na na s then CNaN else CNum s) <$> fields
  else (λ s, if is_na na s then CNaN else CStr s) <$> fields.

(** Short records are padded with missing fields. *)
Definition build_frame (labels : list label) (na : list string)
    (records : list (list string)) : DataFrame :=
  imap (λ j l, (l, column_cells na ((λ r, nth j r EmptyString) <$> records))) labels.

Definition pd_read_csv (path : string) (o : csv_opts) : M DataFrame :=
  data <- read_file path ;;
  match csv_records (sep o) data with
  | None => raise (Exn ParserError [PStr "Error tokenizing data"])
  | Some records =>
      let records := drop (skiprows o) records in
      match names o, header o, records with
      | Some ns, _, _ => ret (build_frame (LName <$> ns) (na_values o) records)
      | None, _, [] => raise (Exn ParserError [PStr "No columns to parse from file"])
      | None, header_infer, first :: rest =>
          ret (build_frame (LName <$> first) (na_values o) rest)
      | None, header_None, first :: _ =>
          ret (build_frame (LPos <$> seq 0 (length first)) (na_values o) records)
      end
  end.

(** [Series.astype]: to [np.float] or to [np.object]. *)
Definition cast_cell (to_float : bool) (c : cell) : M cell :=
  match to_float, c with
  | true, CStr s =>
      if is_numeric s then ret (CNum s)
      else raise (Exn ValueError [PStr ("could not convert string to float: " +:+ s)])
  | _, _ => ret c
  end.

Fixpoint cast_cells (to_float : bool) (cells : list cell) : M (list cell) :=
  match cells with
  | [] => ret []
  | c :: rest =>
      c' <- cast_cell to_float c ;;
      rest' <- cast_cells to_float rest ;;
      ret (c' :: rest')
  end.

(** [DataFrame.astype(dtype)] with a mapping from column names to types;
    columns the mapping does not name are kept. *)
Fixpoint df_astype (dtype : list (string * bool)) (df : DataFrame) : M DataFrame :=
  match df with
  | [] => ret []
  | (l, cells) :: rest =>
      cells' <- match l with
                | LName n =>
                    match assoc n dtype with
                    | Some t => cast_cells t cells
                    | None => ret cells
                    end
                | LPos _ => ret cells
                end ;;
      rest' <- df_astype dtype rest ;;
      ret ((l, cells') :: rest')
  end.

(** [df.<name>]: the first column so labelled. *)
Fixpoint df_column (name : string) (df : DataFrame) : option (list cell) :=
  match df with
  | [] => None
  | (l, cells) :: rest =>
      if bool_decide (l = LName name) then Some cells else df_column name rest
  end.

(** In-place update of that column. *)
Fixpoint df_set_column (name : string) (cells : list cell) (df : DataFrame) : DataFrame :=
  match df with
  | [] => []
  | (l, old) :: rest =>
      if bool_decide (l = LName name) then (l, cells) :: rest
      else (l, old) :: df_set_column name cells rest
  end.

Definition df_getattr (df : DataFrame) (name : string) : M (list cell) :=
  match df_column name df with
  | Some cells => ret cells
  | None =>
      raise (Exn AttributeError
               [PStr ("'DataFrame' object has no attribute '" +:+ name +:+ "'")])
  end.

(** [series[i]] under the default integer index. *)
Definition series_getitem (cells : list cell) (i : nat) : M cell :=
  match cells !! i with
  | Some c => ret c
  | None => raise (Exn ValueError [PStr "index out of range"])
  end.

(** [value[:-1]]: defined on text only. *)
Definition slice_to_minus_1 (c : cell) : M cell :=
  match c with
  | CStr s => ret (CStr (substring 0 (String.length s - 1) s))
  | _ => raise (Exn TypeError [PStr "'float' object is not subscriptable"])
  end.

End pandas.

(** ** [_get_cache_path], [_cached_dataset_load] and the accessors *)

Section datasets.
Context `{Extern}.

Definition _get_cache_path : M string :=
  d <- os_getcwd ;;
  ret (os_path_join d "catboost_cached_datasets").

Definition read_opts (header : header_arg) : csv_opts :=
  CsvOpts None header "," [] 0.

Definition _cached_dataset_load (url : url_arg)
    (md5 dataset_name train_file test_file : string) (header : header_arg)
    : M (DataFrame * DataFrame) :=
  cache <- _get_cache_path ;;
  let dir_path := os_path_join cache dataset_name in
  let train_path := os_path_join dir_path train_file in
  let test_path := os_path_join dir_path test_file in
  have_train <- os_path_exists train_path ;;
  have_both <- (if have_train : bool then os_path_exists test_path else ret false) ;;
  (if negb have_both then
     _ensure_dir_exists dir_path ;;
     file_path <- tempfile_mkstemp ;;
     try_finally
       (_cached_download url md5 file_path ;;
        _extract file_path dir_path)
       (os_remove file_path)
   else ret tt) ;;
  train <- pd_read_csv train_path (read_opts header) ;;
  test <- pd_read_csv test_path (read_opts header) ;;
  ret (train, test).

Definition titanic : M (DataFrame * DataFrame) :=
  _cached_dataset_load
    (UStr "https://storage.mds.yandex.net/get-devtools-opensource/233854/titanic.tar.gz")
    "9c8bc61d545c6af244a1d37494df3fc3" "titanic" "train.csv" "test.csv"
    header_infer.

Definition amazon : M (DataFrame * DataFrame) :=
  _cached_dataset_load
    (UStr "https://storage.mds.yandex.net/get-devtools-opensource/250854/amazon.tar.gz")
    "8fe3eec12bfd9c4c532b24a181d0aa2c" "amazon" "train.csv" "test.csv"
    header_infer.

Definition msrank : M (DataFrame * DataFrame) :=
  _cached_dataset_load
    (UStr "https://storage.mds.yandex.net/get-devtools-opensource/250854/msrank_10k.tar.gz")
    "79c5b67397289c4c8b367c1f34629eae" "msrank" "train.csv" "test.csv"
    header_None.

(** *** [adult] *)

Definition adult_names : list string :=
  ["age"; "workclass"; "fnlwgt"; "education"; "education-num"; "marital-status";
   "occupation"; "relationship"; "race"; "sex"; "capital-gain"; "capital-loss";
   "hours-per-week"; "native-country"; "income"].

Definition adult_dtype : list (string * bool) :=
  [("age", np_float); ("workclass", np_object); ("fnlwgt", np_float);
   ("education", np_object); ("education-num", np_float);
   ("marital-status", np_object); ("occupation", np_object);
   ("relationship", np_object); ("race", np_object); ("sex", np_object);
   ("capital-gain", np_float); ("capital-loss", np_float);
   ("hours-per-week", np_float); ("native-country", np_object);
   ("income", np_object)].

Definition adult_train_urls : list string :=
  ["https://proxy.sandbox.yandex-team.ru/779118052";
   "https://archive.ics.uci.edu/ml/machine-learning-databases/adult/adult.data"].

Definition adult_test_urls : list string :=
  ["https://proxy.sandbox.yandex-team.ru/779120000";
   "https://archive.ics.uci.edu/ml/machine-learning-databases/adult/adult.test"].

Definition adult_opts (skip : nat) : csv_opts :=
  CsvOpts (Some adult_names) header_None ",\s*" ["?"] skip.

(** Lines 134-160: download both parts, parse them, cast the columns. *)
Definition adult_load : M (DataFrame * DataFrame) :=
  cache <- _get_cache_path ;;
  let dir_path := os_path_join cache "adult" in
  _ensure_dir_exists dir_path ;;
  let train_path := os_path_join dir_path "train.csv" in
  _cached_download (UTuple adult_train_urls)
    "5d7c39d7b8804f071cdd1f2a7c460872" train_path ;;
  let test_path := os_path_join dir_path "test.csv" in
  _cached_download (UTuple adult_test_urls)
    "35238206dfdf7f1fe215bbb874adecdc" test_path ;;
  train_df <- pd_read_csv train_path (adult_opts 0) ;;
  test_df <- pd_read_csv test_path (adult_opts 1) ;;
  train_df <- df_astype adult_dtype train_df ;;
  test_df <- df_astype adult_dtype test_df ;;
  ret (train_df, test_df).

(** Lines 166-167, over the indices [range(test_df.income.size)]:
    [test_df.income[i] = test_df.income[i][:-1]]. *)
Fixpoint adult_fix_income (indices : list nat) (test_df : DataFrame) : M DataFrame :=
  match indices with
  | [] => ret test_df
  | i :: rest =>
      income <- df_getattr test_df "income" ;;
      v <- series_getitem income i ;;
      v' <- slice_to_minus_1 v ;;
      income <- df_getattr test_df "income" ;;
      adult_fix_income rest (df_set_column "income" (<[i := v']> income) test_df)
  end.

Definition adult : M (DataFrame * DataFrame) :=
  dfs <- adult_load ;;
  let '(train_df, test_df) := dfs in
  income <- df_getattr test_df "income" ;;
  test_df <- adult_fix_income (seq 0 (length income)) test_df ;;
  ret (train_df, test_df).

End datasets.

(** ** Predicates used in the statements *)

(** [m] relates every start world to the world it ends in by [R], whether it
    returns or raises. *)
Definition preserves {A} (R : relation world) (m : M A) : Prop :=
  ∀ w, R w (m w).2.

(** What exists keeps its kind: a directory stays a directory and a file
    stays a file (its data may change); nothing is removed. *)
Definition node_kept (o o' : option node) : Prop :=
  match o with
  | Some Dir => o' = Some Dir
  | Some (File _) => ∃ data, o' = Some (File data)
  | None => True
  end.

Definition nodes_kept (w w' : world) : Prop :=
  ∀ p, node_kept (fs w !! p) (fs w' !! p).

Definition same_cwd (w w' : world) : Prop := cwd w' = cwd w.

Definition same_fs (w w' : world) : Prop := fs w' = fs w.

(** The destination holds a file with the expected digest. *)
Definition valid_at `{Extern} (dst md5 : string) (w : world) : Prop :=
  ∃ data, fs w !! resolve w dst = Some (File data) ∧ md5_hexdigest data = md5.

(** Text cells are never empty: an empty field is a missing value. *)
Definition cell_ok (c : cell) : Prop := c ≠ CStr EmptyString.

Definition frame_ok (df : DataFrame) : Prop :=
  Forall (λ col, Forall cell_ok col.2) df.

(** A value is the raw value with its one last character removed. *)
Definition last_char_removed (raw fixed : cell) : Prop :=
  ∃ s c, raw = CStr (s +:+ String c EmptyString) ∧ fixed = CStr s.

(** ** A concrete library and concrete worlds

    Small stand-ins for the external functions and a few start worlds, on
    which the model runs by computation. *)

Definition demo_train_part : string := "adult.data".
Definition demo_test_part : string := "adult.test".

Definition demo_md5 (data : string) : string :=
  if bool_decide (data = demo_train_part) then "5d7c39d7b8804f071cdd1f2a7c460872"
  else if bool_decide (data = demo_test_part) then "35238206dfdf7f1fe215bbb874adecdc"
  else "md5-of-" +:+ data.

Definition demo_tar (data : string) : list member * option exn :=
  if bool_decide (data = "titanic.tar.gz")
  then ([MFile "train.csv" "a,b"; MFile "test.csv" "c,d"], None)
  else if bool_decide (data = "truncated.tar.gz")
  then ([MFile "train.csv" "a,b"], Some (Exn ReadError [PStr "unexpected end of data"]))
  else if bool_decide (data = "locks-home.tar.gz")
  then ([MFile "train.csv" "a,b"; MFile "test.csv" "c,d"; MDir "/home/user" 0], None)
  else if bool_decide (data = "readonly-tmp.tar.gz")
  then ([MDir "/tmp" 365; MFile "train.csv" "a,b"; MFile "test.csv" "c,d"], None)
  else ([], Some (Exn ReadError [PStr "not a gzip file"])).

Definition demo_csv (sep data : string) : option (list (list string)) :=
  if bool_decide (data = demo_train_part)
  then Some [["39"; "State-gov"; "77516"; "Bachelors"; "13"; "Never-married";
              "Adm-clerical"; "Not-in-family"; "White"; "Male"; "2174"; "0"; "40";
              "United-States"; "<=50K"]]
  else if bool_decide (data = demo_test_part)
  then Some [["|1x3 Cross validator"];
             ["25"; "Private"; "226802"; "11th"; "7"; "Never-married";
              "Machine-op-inspct"; "Own-child"; "Black"; "Male"; "0"; "0"; "40";
              "United-States"; "<=50K."];
             ["38"; "?"; "89814"; "HS-grad"; "9"; "Married-civ-spouse";
              "Farming-fishing"; "Husband"; "White"; "Male"; "0"; "0"; "50";
              "United-States"; ">50K."]]
  else Some [[data]].

Definition demo_is_numeric (s : string) : bool :=
  forallb (λ c, bool_decide (c ∈ list_ascii_of_string "0123456789"))
    (list_ascii_of_string s)
  && negb (bool_decide (s = EmptyString)).

Definition demo_extern : Extern :=
  {| md5_hexdigest := demo_md5;
     tar_gz_decode := demo_tar;
     csv_records := demo_csv;
     is_numeric := demo_is_numeric |}.

Definition demo_home : string := "/home/user".

(** Nothing but the working directory, its parent and the temp directory
    exists; the answers of the network are given by [answers]. *)
Definition demo_world (answers : nat → string → transfer) : world :=
  {| fs := <["/tmp" := Dir]> (<["/home" := Dir]> {[demo_home := Dir]});
     cwd := demo_home;
     net := answers;
     requests := [];
     mkdir_fault := λ _, None;
     tmp_seq := ["k3x9"; "q7wz"];
     modes := ∅ |}.

Definition unreachable : transfer :=
  Failed (Exn URLError [PStr "<urlopen error timed out>"]) None.

(** The first mirror of a pair is unreachable, the second serves the data. *)
Definition second_mirror_only (good body : string) : nat → string → transfer :=
  λ _ u, if bool_decide (u = good) then Served body else unreachable.

Definition no_mirror : nat → string → transfer := λ _ _, unreachable.

Definition serves (body : string) : nat → string → transfer := λ _ _, Served body.

(** The adult mirrors: the internal one is unreachable, the public archive
    serves both parts. *)
Definition adult_net : nat → string → transfer :=
  λ _ u,
    if bool_decide (u = "https://archive.ics.uci.edu/ml/machine-learning-databases/adult/adult.data")
    then Served demo_train_part
    else if bool_decide (u = "https://archive.ics.uci.edu/ml/machine-learning-databases/adult/adult.test")
    then Served demo_test_part
    else unreachable.

(** Both parts of the adult data set are already in the cache. *)
Definition adult_cached_world : world :=
  set_fs (λ f, <["/home/user/catboost_cached_datasets" := Dir]>
               (<["/home/user/catboost_cached_datasets/adult" := Dir]>
               (<["/home/user/catboost_cached_datasets/adult/train.csv" := File demo_train_part]>
               (<["/home/user/catboost_cached_datasets/adult/test.csv" := File demo_test_part]> f))))
    (demo_world no_mirror).

(** The titanic files are already in the cache. *)
Definition titanic_cached_world : world :=
  set_fs (λ f, <["/home/user/catboost_cached_datasets" := Dir]>
               (<["/home/user/catboost_cached_datasets/titanic" := Dir]>
               (<["/home/user/catboost_cached_datasets/titanic/train.csv" := File "a,b"]>
               (<["/home/user/catboost_cached_datasets/titanic/test.csv" := File "c,d"]> f))))
    (demo_world no_mirror).

(** A world whose file system refuses to create directories. *)
Definition readonly_world : world :=
  {| fs := <["/home" := Dir]> {[demo_home := Dir]};
     cwd := demo_home;
     net := no_mirror;
     requests := [];
     mkdir_fault := λ p, Some (os_error "Permission denied" p);
     tmp_seq := [];
     modes := ∅ |}.

(** No request is made between the two worlds. *)
Definition same_requests (w w' : world) : Prop := requests w' = requests w.

(** A cell that is a number or missing. *)
Definition not_text (c : cell) : Prop := ∀ s, c ≠ CStr s.

(** The destination holds a file of another digest; the mirror serves
    [body]. *)
Definition stale_world (dst : string) (body : string) : world :=
  set_fs (insert dst (File "half a download")) (demo_world (serves body)).

(** An archive lies in the working directory, next to an empty directory
    [out]. *)
Definition archive_world : world :=
  set_fs (λ f, <["/home/user/t.tgz" := File "titanic.tar.gz"]>
               (<["/home/user/out" := Dir]> f))
    (demo_world no_mirror).



(** The test part in the cache has a second record without a label. *)
Definition demo_unlabelled_part : string := "adult.test without a label".

Definition unlabelled_md5 (data : string) : string :=
  if bool_decide (data = demo_unlabelled_part) then "35238206dfdf7f1fe215bbb874adecdc"
  else demo_md5 data.

Definition unlabelled_csv (sep data : string) : option (list (list string)) :=
  if bool_decide (data = demo_unlabelled_part)
  then Some [["|1x3 Cross validator"];
             ["25"; "Private"; "226802"; "11th"; "7"; "Never-married";
              "Machine-op-inspct"; "Own-child"; "Black"; "Male"; "0"; "0"; "40";
              "United-States"; "<=50K."];
             ["38"; "?"; "89814"; "HS-grad"; "9"; "Married-civ-spouse";
              "Farming-fishing"; "Husband"; "White"; "Male"; "0"; "0"; "50";
              "United-States"; "?"]]
  else demo_csv sep data.

Definition unlabelled_extern : Extern :=
  {| md5_hexdigest := unlabelled_md5;
     tar_gz_decode := demo_tar;
     csv_records := unlabelled_csv;
     is_numeric := demo_is_numeric |}.

Definition adult_unlabelled_world : world :=
  set_fs (λ f, <["/home/user/catboost_cached_datasets" := Dir]>
               (<["/home/user/catboost_cached_datasets/adult" := Dir]>
               (<["/home/user/catboost_cached_datasets/adult/train.csv" := File demo_train_part]>
               (<["/home/user/catboost_cached_datasets/adult/test.csv" := File demo_unlabelled_part]> f))))
    (demo_world no_mirror).

(** The requests made between two worlds are, in order, some of [allowed]. *)
Definition requests_within (allowed : list string) (w w' : world) : Prop :=
  ∃ l, requests w' = (requests w ++ l)%list ∧ sublist l allowed.

(** No mode is set between the two worlds. *)
Definition same_modes (w w' : world) : Prop := modes w' = modes w.

(** Neither the working directory nor a mode is changed. *)
Definition same_cwd_modes (w w' : world) : Prop :=
  cwd w' = cwd w ∧ modes w' = modes w.

(** Nothing but the entry at [dst] is changed in the file system, and the
    working directory and the modes are kept. *)
Definition only_at (dst : string) (w w' : world) : Prop :=
  cwd w' = cwd w ∧ modes w' = modes w ∧
  ∀ p, p ≠ resolve w dst → fs w' !! p = fs w !! p.

(** The file system is the same at every path outside of [touched]. *)
Definition same_outside (touched : string → Prop) (w w' : world) : Prop :=
  ∀ q, ¬ touched q → fs w' !! q = fs w !! q.


(** * Properties *)

(** ** Framing: what a computation leaves as it was *)

Section frame.
Context (R : relation world) `{!PreOrder R}.

Lemma preserves_ret {A} (a : A) : preserves R (ret a).
Proof. intros w. reflexivity. Qed.

Lemma preserves_raise {A} e : preserves R (@raise A e).
Proof. intros w. reflexivity. Qed.

Lemma preserves_gets {A} (f : world → A) : preserves R (gets f).
Proof. intros w. reflexivity. Qed.

Lemma preserves_bind {A B} (m : M A) (k : A → M B) :
  preserves R m → (∀ a, preserves R (k a)) → preserves R (bind m k).
Proof.
  intros Hm Hk w. unfold bind. specialize (Hm w).
  destruct (m w) as [[a|e] w1]; simpl in *; [|done].
  etrans; [exact Hm|apply Hk].
Qed.

Lemma preserves_try_except {A} (body : M A) classes handler :
  preserves R body → preserves R classes → (∀ e, preserves R (handler e)) →
  preserves R (try_except body classes handler).
Proof.
  intros Hb Hc Hh w. unfold try_except. specialize (Hb w).
  destruct (body w) as [[a|e] w1]; simpl in *; [done|].
  specialize (Hc w1). destruct (classes w1) as [[handles|e'] w2]; simpl in *.
  - destruct (handles e); simpl; [|by etrans].
    etrans; [exact Hb|]. etrans; [exact Hc|apply Hh].
  - by etrans.
Qed.

Lemma preserves_try_finally {A} (body : M A) cleanup :
  preserves R body → preserves R cleanup →
  preserves R (try_finally body cleanup).
Proof.
  intros Hb Hc w. unfold try_finally. specialize (Hb w).
  destruct (body w) as [r w1]; simpl in *.
  specialize (Hc w1). destruct (cleanup w1) as [[[]|e] w2]; simpl in *; by etrans.
Qed.

Lemma preserves_if {A} (b : bool) (m1 m2 : M A) :
  preserves R m1 → preserves R m2 → preserves R (if b then m1 else m2).
Proof. by destruct b. Qed.

End frame.

#[global] Instance nodes_kept_preorder : PreOrder nodes_kept.
Proof.
  split.
  - intros w p. unfold node_kept. destruct (fs w !! p) as [[d|]|]; eauto.
  - intros w1 w2 w3 H12 H23 p. specialize (H12 p). specialize (H23 p).
    unfold node_kept in *.
    destruct (fs w1 !! p) as [[d|]|]; [|by rewrite H12 in H23|done].
    destruct H12 as [d' Hd']. by rewrite Hd' in H23.
Qed.

#[global] Instance same_cwd_preorder : PreOrder same_cwd.
Proof. split; unfold same_cwd; [done|intros ???; congruence]. Qed.

#[global] Instance same_fs_preorder : PreOrder same_fs.
Proof. split; unfold same_fs; [done|intros ???; congruence]. Qed.

#[global] Instance eq_world_preorder : PreOrder (@eq world).
Proof. split; [done|intros ???; congruence]. Qed.

Create HintDb frame discriminated.
#[global] Hint Resolve preserves_ret preserves_raise preserves_gets
  preserves_bind preserves_try_except preserves_try_finally preserves_if : frame.

(** ** Paths *)




Lemma resolve_same_cwd w w' p : cwd w' = cwd w → resolve w' p = resolve w p.
Proof. intros Hc. unfold resolve. by rewrite Hc. Qed.

(** ** The primitives *)

Lemma node_kept_refl o : node_kept o o.
Proof. destruct o as [[d|]|]; simpl; eauto. Qed.

Lemma node_kept_insert (f : gmap string node) r n p :
  node_kept (f !! r) (Some n) → node_kept (f !! p) (<[r := n]> f !! p).
Proof.
  intros Hr. destruct (decide (r = p)) as [->|Hne].
  - by rewrite lookup_insert_eq.
  - rewrite lookup_insert_ne by done. apply node_kept_refl.
Qed.

Lemma os_getcwd_eq : preserves eq os_getcwd.
Proof. intros w. unfold os_getcwd. by destruct (fs w !! cwd w) as [[d|]|]. Qed.


Lemma read_file_eq p : preserves eq (read_file p).
Proof. intros w. unfold read_file. by destruct (fs w !! resolve w p) as [[d|]|]. Qed.

Lemma write_file_nodes_kept p data : preserves nodes_kept (write_file p data).
Proof.
  intros w q. unfold write_file.
  destruct (fs w !! resolve w p) as [[d|]|] eqn:E; simpl;
    try apply node_kept_refl; apply node_kept_insert; rewrite E; simpl; eauto.
Qed.

#[global] Instance same_modes_preorder : PreOrder same_modes.
Proof. split; unfold same_modes; [done|intros ???; congruence]. Qed.



Lemma eq_preserves {A} (R : relation world) `{!Reflexive R} (m : M A) :
  preserves eq m → preserves R m.
Proof. intros Hm w. by rewrite <- (Hm w). Qed.

(** [os.mkdir] either adds the directory, which was not there, or raises and
    changes nothing. *)
Lemma os_mkdir_cases p w :
  (fs w !! p = None ∧ os_mkdir p w = (Ok tt, set_fs (insert p Dir) w)) ∨
  ∃ e, os_mkdir p w = (Raise e, w).
Proof.
  unfold os_mkdir. destruct (fs w !! p) as [n|] eqn:E; [right; eauto|].
  destruct (parent_dir p ≫= (λ d, fs w !! d)) as [[data|]|];
    try (right; by eauto);
    destruct (mkdir_fault w p); (right; by eauto) || (left; by eauto).
Qed.

Section makedirs_frame.
Context (R : relation world) `{!PreOrder R} (made : string → Prop).
Hypothesis new_dir :
  ∀ w p, made p → fs w !! p = None → R w (set_fs (insert p Dir) w).

Lemma os_mkdir_preserves p : made p → preserves R (os_mkdir p).
Proof.
  intros Hp w. destruct (os_mkdir_cases p w) as [[Hn ->]|[e ->]]; simpl; [|done].
  by apply new_dir.
Qed.

Lemma mkdir_missing_preserves dirs : Forall made dirs → preserves R (mkdir_missing dirs).
Proof.
  induction 1 as [|d dirs Hd Hdirs IH]; simpl; [by apply preserves_ret|].
  apply preserves_bind; [done|by apply preserves_gets|intros present].
  apply preserves_bind; [done| |done].
  destruct present; [by apply preserves_ret|by apply os_mkdir_preserves].
Qed.

(** [os.makedirs] makes nothing but the directory and its ancestors. *)
Lemma os_makedirs_frame p w :
  made (resolve w p) → Forall made (ancestors (resolve w p)) →
  R w (os_makedirs p w).2.
Proof.
  intros Hp Ha. unfold os_makedirs. destruct (fs w !! resolve w p); [done|].
  apply (preserves_bind R); [by apply mkdir_missing_preserves|].
  intros _. by apply os_mkdir_preserves.
Qed.

End makedirs_frame.

Lemma os_makedirs_preserves (R : relation world) `{!PreOrder R} :
  (∀ w p, fs w !! p = None → R w (set_fs (insert p Dir) w)) →
  ∀ p, preserves R (os_makedirs p).
Proof.
  intros Hnew p w. apply (os_makedirs_frame R (λ _, True)); [by eauto|done|].
  by apply Forall_true.
Qed.

Lemma os_makedirs_nodes_kept p : preserves nodes_kept (os_makedirs p).
Proof.
  apply os_makedirs_preserves; [apply _|]. intros w q Hq r. simpl.
  apply node_kept_insert. by rewrite Hq.
Qed.

Lemma os_makedirs_same_cwd p : preserves same_cwd (os_makedirs p).
Proof. apply os_makedirs_preserves; [apply _|]. by intros w q _. Qed.

(** After a normal return of [os.makedirs] the directory is there. *)
Lemma os_makedirs_Ok p w w1 :
  os_makedirs p w = (Ok tt, w1) →
  fs w1 !! resolve w p = Some Dir ∧ cwd w1 = cwd w.
Proof.
  intros Hrun. split; [|apply (f_equal snd) in Hrun; simpl in Hrun; subst w1;
                        apply (os_makedirs_same_cwd p w)].
  unfold os_makedirs in Hrun. destruct (fs w !! resolve w p); [done|].
  unfold bind in Hrun.
  destruct (mkdir_missing (ancestors (resolve w p)) w) as [[[]|e] w0]; [|done].
  destruct (os_mkdir_cases (resolve w p) w0) as [[_ Hmk]|[e Hmk]];
    rewrite Hmk in Hrun; [|done].
  injection Hrun as <-. simpl. apply lookup_insert_eq.
Qed.


(** ** [_ensure_dir_exists] *)

Lemma ensure_dir_exists_run path w :
  _ensure_dir_exists path w =
    match os_makedirs path w with
    | (Ok _, w1) => (Ok tt, w1)
    | (Raise e, w1) =>
        if isinstance e OSError
        then match fs w1 !! resolve w1 path with
             | Some Dir => (Ok tt, w1)
             | _ => (Raise e, w1)
             end
        else (Raise e, w1)
    end.
Proof.
  unfold _ensure_dir_exists, try_except.
  destruct (os_makedirs path w) as [[[]|e] w1]; [done|]. simpl.
  destruct (isinstance e OSError); [|done].
  unfold bind, os_path_isdir, gets.
  by destruct (fs w1 !! resolve w1 path) as [[d|]|].
Qed.

(** C9.  [_ensure_dir_exists] returns normally when creating the directory
    fails because the directory is already there; it re-raises the very error
    of the failed creation whenever the path is not a directory after the
    failure; and after a normal return the path is a directory. *)
Theorem ensure_dir_exists_tolerates_existing path w :
  (fs w !! resolve w path = Some Dir →
     (os_makedirs path w).1 = Raise (os_error "File exists" path) ∧
     _ensure_dir_exists path w = (Ok tt, w)) ∧
  (∀ e w1, os_makedirs path w = (Raise e, w1) →
     os_path_isdir path w1 = (Ok false, w1) →
     _ensure_dir_exists path w = (Raise e, w1)) ∧
  (∀ w', _ensure_dir_exists path w = (Ok tt, w') →
     os_path_isdir path w' = (Ok true, w')).
Proof.
  split; [|split].
  - intros Hd. rewrite ensure_dir_exists_run. unfold os_makedirs.
    rewrite Hd. simpl. by rewrite Hd.
  - intros e w1 Hmk Hnd. rewrite ensure_dir_exists_run, Hmk.
    unfold os_path_isdir, gets in Hnd.
    destruct (fs w1 !! resolve w1 path) as [[d|]|]; try done; by destruct (isinstance e OSError).
  - intros w'. rewrite ensure_dir_exists_run. unfold os_path_isdir, gets.
    destruct (os_makedirs path w) as [[[]|e] w1] eqn:Hmk.
    + intros [= <-]. destruct (os_makedirs_Ok _ _ _ Hmk) as [Hd Hc].
      by rewrite (resolve_same_cwd w w1 path Hc), Hd.
    + destruct (isinstance e OSError); [|done].
      destruct (fs w1 !! resolve w1 path) as [[d|]|] eqn:E; try done.
      intros [= <-]. by rewrite E.
Qed.

(** ** [_extract] *)

Lemma os_chmod_cases p mode w :
  os_chmod p mode w = (Ok tt, w) ∨
  os_chmod p mode w = (Ok tt, set_mode (resolve w p) mode w).
Proof.
  unfold os_chmod. destruct (forallb _ _); [by right|by left].
Qed.

Lemma os_chmod_preserves (R : relation world) `{!Reflexive R} p mode :
  (∀ w q m, R w (set_mode q m w)) → preserves R (os_chmod p mode).
Proof.
  intros Hset w. destruct (os_chmod_cases p mode w) as [->| ->]; simpl; [done|].
  apply Hset.
Qed.





Section extract_props.
Context `{Extern}.

Lemma tarfile_open_eq src : preserves eq (tarfile_open src).
Proof.
  unfold tarfile_open. apply preserves_bind; [apply _|apply read_file_eq|].
  intros data. by apply preserves_ret, _.
Qed.

Lemma extract_member_preserves (R : relation world) `{!PreOrder R} m :
  (∀ w p, fs w !! p = None → R w (set_fs (insert p Dir) w)) →
  (∀ p data, preserves R (write_file p data)) →
  preserves R (extract_member m).
Proof.
  intros Hnew Hwrite. unfold extract_member.
  apply preserves_bind; [done|by apply preserves_gets|intros target].
  apply preserves_bind; [done| |intros _].
  { apply (mkdir_missing_preserves R (λ _, True)); [by eauto|by apply Forall_true]. }
  destruct m as [name data|name mode]; [apply Hwrite|].
  apply preserves_bind; [done|by apply preserves_gets|intros present].
  destruct present; [by apply preserves_ret|].
  apply (os_mkdir_preserves R (λ _, True)); by eauto.
Qed.



Lemma extract_members_preserves (R : relation world) `{!PreOrder R} ms :
  (∀ m, preserves R (extract_member m)) → preserves R (extract_members ms).
Proof.
  intros Hm. induction ms as [|m ms IH]; simpl; eauto with frame.
Qed.

Lemma set_dir_modes_preserves (R : relation world) `{!PreOrder R} dirs :
  (∀ w q m, R w (set_mode q m w)) → preserves R (set_dir_modes dirs).
Proof.
  intros Hset. induction dirs as [|[name mode] dirs IH]; simpl;
    [by apply preserves_ret|].
  apply preserves_bind; [done|by apply os_chmod_preserves; [apply _|]|done].
Qed.

Lemma extractall_preserves (R : relation world) `{!PreOrder R} f :
  (∀ m, preserves R (extract_member m)) → (∀ w q m, R w (set_mode q m w)) →
  preserves R (extractall f).
Proof.
  intros Hm Hset. unfold extractall. apply preserves_bind; [done| |].
  - by apply extract_members_preserves.
  - intros _. destruct (snd f); [by apply preserves_raise|].
    by apply set_dir_modes_preserves.
Qed.

(** The body of the [try] block: open the archive and extract it. *)
Lemma extract_body_preserves (R : relation world) `{!PreOrder R} src :
  (∀ m, preserves R (extract_member m)) → (∀ w q m, R w (set_mode q m w)) →
  preserves R (f <- tarfile_open src ;; extractall f).
Proof.
  intros Hm Hset. apply preserves_bind; [done| |].
  - apply eq_preserves; [apply _|apply tarfile_open_eq].
  - intros f. by apply extractall_preserves.
Qed.












End extract_props.

(** ** [_calc_md5] *)

Lemma append_cons c s t : String c s +:+ t = String c (s +:+ t).
Proof. reflexivity. Qed.

Lemma append_empty_r s : s +:+ EmptyString = s.
Proof. induction s as [|c s IH]; [done|]. by rewrite append_cons, IH. Qed.

Lemma append_assoc s1 s2 s3 : (s1 +:+ s2) +:+ s3 = s1 +:+ (s2 +:+ s3).
Proof. induction s1 as [|c s1 IH]; [done|]. by rewrite !append_cons, IH. Qed.

Lemma substring_whole s : substring 0 (String.length s) s = s.
Proof. induction s as [|c s IH]; [done|]. cbn. by f_equal. Qed.

Lemma substring_split n s :
  substring 0 n s +:+ substring n (String.length s - n) s = s.
Proof.
  revert s. induction n as [|n IH]; intros [|c s]; try done.
  - change (substring 0 (String.length (String c s)) (String c s) = String c s).
    apply substring_whole.
  - cbn. rewrite append_cons. f_equal. apply IH.
Qed.

Lemma substring_prefix_empty n s : 0 < n → substring 0 n s = EmptyString → s = EmptyString.
Proof. intros Hn. destruct n; [lia|]. by destruct s. Qed.

Lemma substring_rest_length n s :
  String.length (substring n (String.length s - n) s) = String.length s - n.
Proof.
  revert s. induction n as [|n IH]; intros [|c s]; try done.
  - change (String.length (substring 0 (String.length (String c s)) (String c s))
            = String.length (String c s)).
    by rewrite substring_whole.
  - cbn. apply IH.
Qed.

Lemma BLOCK_pos : 0 < BLOCK.
Proof. unfold BLOCK. lia. Qed.

(** The read loop hands the whole file to the hasher. *)
Lemma md5_read_loop_all fuel unread hasher :
  String.length unread < fuel →
  md5_read_loop fuel unread hasher = hasher +:+ unread.
Proof.
  revert unread hasher. induction fuel as [|fuel IH]; intros unread hasher Hlen; [lia|].
  cbn [md5_read_loop]. pose proof BLOCK_pos as Hpos.
  pose proof (substring_split BLOCK unread) as Hsplit.
  pose proof (substring_rest_length BLOCK unread) as Hrest.
  case_bool_decide as Hblock.
  - apply (substring_prefix_empty _ _ Hpos) in Hblock. subst unread.
    by rewrite append_empty_r.
  - rewrite IH.
    + by rewrite append_assoc, Hsplit.
    + rewrite Hrest. destruct unread as [|c unread].
      * by destruct BLOCK.
      * cbn [String.length] in *. lia.
Qed.

Section md5_props.
Context `{Extern}.

Lemma calc_md5_file path w data :
  fs w !! resolve w path = Some (File data) →
  _calc_md5 path w = (Ok (md5_hexdigest data), w).
Proof.
  intros Hf. unfold _calc_md5, bind, read_file, ret. rewrite Hf.
  by rewrite md5_read_loop_all by lia.
Qed.

Lemma calc_md5_eq path : preserves eq (_calc_md5 path).
Proof.
  unfold _calc_md5. apply preserves_bind; [apply _|apply read_file_eq|].
  intros data. by apply preserves_ret, _.
Qed.

End md5_props.

(** ** [_cached_download] *)

Lemma urlretrieve_served u dst w body :
  net w (length (requests w)) u = Served body →
  fs w !! resolve w dst ≠ Some Dir →
  urlretrieve u dst w =
    (Ok tt, set_fs (insert (resolve w dst) (File body)) (log_request u w)).
Proof.
  intros Hnet Hdst. unfold urlretrieve, bind, gets, modify. rewrite Hnet.
  unfold write_file. change (resolve (log_request u w) dst) with (resolve w dst).
  change (fs (log_request u w)) with (fs w).
  by destruct (fs w !! resolve w dst) as [[d|]|].
Qed.

Lemma urlretrieve_failed u dst w e partial :
  net w (length (requests w)) u = Failed e partial →
  ∃ e' w1, urlretrieve u dst w = (Raise e', w1) ∧ requests w1 = (requests w ++ [u])%list.
Proof.
  intros Hnet. unfold urlretrieve, bind, gets, modify. rewrite Hnet.
  destruct partial as [data|]; [|by eauto].
  unfold write_file. change (resolve (log_request u w) dst) with (resolve w dst).
  change (fs (log_request u w)) with (fs w).
  destruct (fs w !! resolve w dst) as [[d|]|]; by eauto.
Qed.

Lemma urlretrieve_nodes_kept u dst : preserves nodes_kept (urlretrieve u dst).
Proof.
  intros w p. unfold urlretrieve, bind, gets, modify.
  destruct (net w (length (requests w)) u) as [body|e [data|]];
    try apply node_kept_refl.
  - apply (write_file_nodes_kept dst body (log_request u w) p).
  - pose proof (write_file_nodes_kept dst data (log_request u w) p) as Hw.
    by destruct (write_file dst data (log_request u w)) as [[[]|e'] w1].
Qed.


(** Evaluating the handler's class tuple fails: [urllib] has no attribute
    [URLError]. *)
Lemma except_URLError_IOError_raises w :
  except_URLError_IOError w =
    (Raise (Exn AttributeError [PStr "module 'urllib' has no attribute 'URLError'"]), w).
Proof. reflexivity. Qed.

Lemma except_URLError_IOError_eq : preserves eq except_URLError_IOError.
Proof. intros w. reflexivity. Qed.

Lemma except_error_URLError_IOError_eq : preserves eq except_error_URLError_IOError.
Proof. intros w. reflexivity. Qed.

Section download_props.
Context `{Extern}.

Lemma download_loop_preserves (R : relation world) `{!PreOrder R} classes urls dst :
  preserves R classes → (∀ u, preserves R (urlretrieve u dst)) →
  preserves R (download_loop classes urls dst).
Proof.
  intros Hc Hu. induction urls as [|u urls IH]; simpl; [by apply preserves_ret|].
  apply preserves_bind; [done| |intros []; eauto with frame].
  apply preserves_try_except; eauto with frame.
Qed.

Lemma cached_download_with_preserves (R : relation world) `{!PreOrder R}
    classes url md5 dst :
  preserves R classes → (∀ u, preserves R (urlretrieve u dst)) →
  preserves R (cached_download_with classes url md5 dst).
Proof.
  intros Hc Hu. unfold cached_download_with.
  assert (Hmd5 : preserves R (_calc_md5 dst))
    by (apply eq_preserves; [apply _|apply calc_md5_eq]).
  apply preserves_bind; [done|unfold os_path_isfile; eauto with frame|intros isfile].
  apply preserves_bind; [done| |intros cached].
  { destruct isfile; eauto with frame. }
  destruct cached; [eauto with frame|].
  apply preserves_bind; [done|by apply download_loop_preserves|intros done].
  apply preserves_bind; [done|destruct done; eauto with frame|intros _].
  apply preserves_bind; [done|done|intros dst_md5].
  case_bool_decide; eauto with frame.
Qed.

Lemma cached_download_nodes_kept url md5 dst :
  preserves nodes_kept (_cached_download url md5 dst).
Proof.
  apply cached_download_with_preserves; [apply _| |intros u; apply urlretrieve_nodes_kept].
  apply eq_preserves; [apply _|apply except_URLError_IOError_eq].
Qed.


(** The cache check of lines 49-50. *)
Lemma cached_download_with_valid classes url md5 dst w :
  valid_at dst md5 w → cached_download_with classes url md5 dst w = (Ok tt, w).
Proof.
  intros (data & Hf & Hmd5). unfold cached_download_with, bind at 1.
  unfold os_path_isfile, gets. rewrite Hf. unfold bind at 1, bind at 1.
  rewrite (calc_md5_file dst w data Hf). unfold ret at 1.
  by rewrite bool_decide_eq_true_2.
Qed.

Lemma cached_download_with_stale classes url md5 dst w :
  ¬ valid_at dst md5 w →
  cached_download_with classes url md5 dst w =
    (done <- download_loop classes (iter (urls_of url)) dst ;;
     (if done : bool then ret tt
      else raise (Exn RuntimeError [PStr "failed to download from %s"; urls_of url])) ;;
     dst_md5 <- _calc_md5 dst ;;
     if bool_decide (dst_md5 ≠ md5) then raise (md5_mismatch md5 dst_md5)
     else ret tt) w.
Proof.
  intros Hstale. unfold cached_download_with, bind at 1.
  unfold os_path_isfile, gets.
  destruct (fs w !! resolve w dst) as [[data|]|] eqn:Hf; try done.
  unfold bind at 1, bind at 1. rewrite (calc_md5_file dst w data Hf).
  unfold ret at 1. rewrite bool_decide_eq_false_2; [done|].
  intros Hmd5. apply Hstale. by exists data.
Qed.

(** C1.  When the destination already holds a file whose MD5 digest is the
    expected one, [_cached_download] returns at once: nothing is requested
    from the network and the file system, the destination included, is as
    before; so a second call in that state does nothing either. *)
Theorem cached_download_valid_noop url md5 dst w :
  valid_at dst md5 w →
  _cached_download url md5 dst w = (Ok tt, w) ∧
  (_cached_download url md5 dst ;; _cached_download url md5 dst) w = (Ok tt, w).
Proof.
  intros Hv. pose proof (cached_download_with_valid except_URLError_IOError
                           url md5 dst w Hv) as Hrun.
  split; [exact Hrun|]. unfold bind. fold (_cached_download url md5 dst).
  unfold _cached_download at 1. rewrite Hrun. exact Hrun.
Qed.

End download_props.

Lemma bind_ext {A B} (m : M A) (k1 k2 : A → M B) w :
  (∀ a w1, k1 a w1 = k2 a w1) → bind m k1 w = bind m k2 w.
Proof. intros Hk. unfold bind. by destruct (m w) as [[a|e] w1]. Qed.

Section mirror_props.
Context `{Extern}.

(** Mirrors whose failure the handler absorbed do not count: the loop goes
    on with the rest. *)
Lemma download_loop_app classes pre rest dst w w1 :
  download_loop classes pre dst w = (Ok false, w1) →
  download_loop classes (pre ++ rest)%list dst w = download_loop classes rest dst w1.
Proof.
  revert w. induction pre as [|u pre IH]; intros w; simpl.
  - by intros [= <-].
  - unfold bind at 1 3.
    destruct (try_except _ _ _ w) as [[[]|e] w2]; try done. apply IH.
Qed.

Lemma download_loop_served classes u rest dst w body :
  net w (length (requests w)) u = Served body →
  fs w !! resolve w dst ≠ Some Dir →
  download_loop classes (u :: rest) dst w =
    (Ok true, set_fs (insert (resolve w dst) (File body)) (log_request u w)).
Proof.
  intros Hnet Hdst. simpl. unfold bind at 1, try_except, bind at 1.
  by rewrite (urlretrieve_served u dst w body Hnet Hdst).
Qed.

(** With the class tuple as written, the first failed transfer ends the
    loop: the lookup of [urllib.URLError] raises in the handler clause. *)
Lemma download_loop_first_failure u rest dst w e w1 :
  urlretrieve u dst w = (Raise e, w1) →
  download_loop except_URLError_IOError (u :: rest) dst w =
    (Raise (Exn AttributeError [PStr "module 'urllib' has no attribute 'URLError'"]), w1).
Proof.
  intros Hu. simpl. unfold bind at 1, try_except, bind at 1. by rewrite Hu.
Qed.

(** With the classes bound as the clause means them, a failed transfer is
    absorbed and the next mirror is tried. *)
Lemma download_loop_fallback u rest dst w e w1 :
  urlretrieve u dst w = (Raise e, w1) →
  isinstance e OSError = true →
  download_loop except_error_URLError_IOError (u :: rest) dst w =
    download_loop except_error_URLError_IOError rest dst w1.
Proof.
  intros Hu He. simpl. unfold bind at 1, try_except, bind at 1. rewrite Hu.
  unfold except_error_URLError_IOError, ret at 1. simpl.
  by rewrite He, orb_true_r.
Qed.

Lemma cached_download_with_mismatch classes url md5 dst w pre u post w1 body :
  ¬ valid_at dst md5 w →
  iter (urls_of url) = (pre ++ u :: post)%list →
  download_loop classes pre dst w = (Ok false, w1) →
  net w1 (length (requests w1)) u = Served body →
  fs w1 !! resolve w1 dst ≠ Some Dir →
  md5_hexdigest body ≠ md5 →
  cached_download_with classes url md5 dst w =
    (Raise (md5_mismatch md5 (md5_hexdigest body)),
     set_fs (insert (resolve w1 dst) (File body)) (log_request u w1)).
Proof.
  intros Hstale Hurls Hpre Hnet Hdst Hne.
  rewrite cached_download_with_stale by done. rewrite Hurls.
  unfold bind at 1. rewrite (download_loop_app _ _ _ _ _ _ Hpre).
  rewrite (download_loop_served _ _ _ _ _ _ Hnet Hdst).
  unfold bind at 1, ret at 1, bind at 1.
  erewrite calc_md5_file; last first.
  { change (resolve (set_fs _ (log_request u w1)) dst) with (resolve w1 dst).
    simpl. apply lookup_insert_eq. }
  by rewrite bool_decide_eq_true_2.
Qed.

(** C2.  Whatever the list of mirrors: once the transfer from a mirror [u]
    succeeds (the mirrors before it having failed and been passed over) and
    the digest of what was downloaded is not the expected one,
    [_cached_download] raises the runtime error that names the expected and
    the actual digest, and the mirrors after [u] are never requested: the
    request to [u] is the last one made. *)
Theorem cached_download_mismatch_stops url md5 dst w pre u post w1 body :
  ¬ valid_at dst md5 w →
  iter (urls_of url) = (pre ++ u :: post)%list →
  download_loop except_URLError_IOError pre dst w = (Ok false, w1) →
  net w1 (length (requests w1)) u = Served body →
  fs w1 !! resolve w1 dst ≠ Some Dir →
  md5_hexdigest body ≠ md5 →
  ∃ w',
    _cached_download url md5 dst w =
      (Raise (Exn RuntimeError
                [PStr ("md5 sum mismatch; expected " +:+ md5 +:+ ", but got "
                       +:+ md5_hexdigest body)]), w') ∧
    requests w' = (requests w1 ++ [u])%list ∧
    fs w' !! resolve w' dst = Some (File body).
Proof.
  intros Hstale Hurls Hpre Hnet Hdst Hne. eexists. split; [|split].
  - by apply (cached_download_with_mismatch _ url md5 dst w pre u post w1 body).
  - done.
  - change (resolve (set_fs _ (log_request u w1)) dst) with (resolve w1 dst).
    simpl. apply lookup_insert_eq.
Qed.

(** A loop over a single mirror never ends without [break]: either the
    transfer succeeded or the handler clause raised. *)
Lemma download_loop_single u dst w :
  (download_loop except_URLError_IOError [u] dst w).1 ≠ Ok false.
Proof.
  simpl. unfold bind at 1, try_except, bind at 1.
  by destruct (urlretrieve u dst w) as [[[]|e] w1].
Qed.

(** C10.  A lone URL string is turned into the one-element tuple of
    mirrors, so [_cached_download] on the string [u] and on a one-element
    sequence holding [u] (a tuple or a list) are the same computation: same
    result or error, same final world. *)
Theorem cached_download_str_singleton u md5 dst w :
  urls_of (UStr u) = PTuple [u] ∧
  _cached_download (UStr u) md5 dst w = _cached_download (UTuple [u]) md5 dst w ∧
  _cached_download (UStr u) md5 dst w = _cached_download (UList [u]) md5 dst w.
Proof.
  split; [done|]. split; [done|].
  unfold _cached_download, cached_download_with.
  apply bind_ext; intros isfile w1. apply bind_ext; intros [] w2; [done|].
  simpl iter. pose proof (download_loop_single u dst w2) as Hne.
  unfold bind.
  by destruct (download_loop except_URLError_IOError [u] dst w2) as [[[]|e] w3].
Qed.

End mirror_props.

(** ** Mirror fallback and total failure, run *)

(** C3.  Two mirrors, the first unreachable ([URLError]), the second serving
    data with the expected digest, nothing at the destination.  The call does
    not complete: the [except] clause names [urllib.URLError], the lookup
    raises [AttributeError], and the second mirror is never requested.  With
    the classes bound, the same call succeeds. *)
Theorem cached_download_fallback_raises :
  let w := demo_world (second_mirror_only "https://b.example/d.tgz" "payload") in
  let urls := UTuple ["https://a.example/d.tgz"; "https://b.example/d.tgz"] in
  let md5 := md5_hexdigest (Extern := demo_extern) "payload" in
  let run := _cached_download (H := demo_extern) urls md5 "/home/user/d.tgz" w in
  net w 0 "https://a.example/d.tgz" = unreachable ∧
  net w 1 "https://b.example/d.tgz" = Served "payload" ∧
  fs w !! "/home/user/d.tgz" = None ∧
  run.1 = Raise (Exn AttributeError [PStr "module 'urllib' has no attribute 'URLError'"]) ∧
  requests run.2 = ["https://a.example/d.tgz"] ∧
  (cached_download_with (H := demo_extern) except_error_URLError_IOError
     urls md5 "/home/user/d.tgz" w).1 = Ok tt.
Proof. vm_compute. repeat split. Qed.

(** C4.  Two mirrors, both unreachable, nothing at the destination.  The
    error raised is not the runtime error naming the mirrors but the
    [AttributeError] of the handler clause, after the first mirror only; no
    file is left at the destination.  With the classes bound, the call raises
    [RuntimeError('failed to download from %s', urls)]. *)
Theorem cached_download_total_failure_raises :
  let w := demo_world no_mirror in
  let urls := UTuple ["https://a.example/d.tgz"; "https://b.example/d.tgz"] in
  let run := _cached_download (H := demo_extern) urls "0123" "/home/user/d.tgz" w in
  run.1 = Raise (Exn AttributeError [PStr "module 'urllib' has no attribute 'URLError'"]) ∧
  requests run.2 = ["https://a.example/d.tgz"] ∧
  fs run.2 !! "/home/user/d.tgz" = None ∧
  (cached_download_with (H := demo_extern) except_error_URLError_IOError
     urls "0123" "/home/user/d.tgz" w).1 =
    Raise (Exn RuntimeError
             [PStr "failed to download from %s";
              PTuple ["https://a.example/d.tgz"; "https://b.example/d.tgz"]]).
Proof. vm_compute. repeat split. Qed.

(** ** [_cached_dataset_load] *)




Lemma may_unlink_same_modes w w' p : modes w' = modes w → may_unlink w' p = may_unlink w p.
Proof.
  intros Hm. unfold may_unlink, searchable, writable, mode_bit. by rewrite Hm.
Qed.




Section loader_props.
Context `{Extern}.

Lemma pd_read_csv_eq path o : preserves eq (pd_read_csv path o).
Proof.
  unfold pd_read_csv. apply preserves_bind; [apply _|apply read_file_eq|].
  intros data. destruct (csv_records (sep o) data) as [records|];
    [|by apply preserves_raise, _].
  destruct (names o) as [ns|]; [by apply preserves_ret, _|].
  destruct (drop (skiprows o) records) as [|first rest];
    [by destruct (header o); apply preserves_raise, _|].
  destruct (header o); by apply preserves_ret, _.
Qed.

(** The two [read_csv] calls of the [return] statement. *)
Lemma read_both_eq train_path test_path o :
  preserves eq (train <- pd_read_csv train_path o ;;
                test <- pd_read_csv test_path o ;;
                ret (train, test)).
Proof.
  apply preserves_bind; [apply _|apply pd_read_csv_eq|intros train].
  apply preserves_bind; [apply _|apply pd_read_csv_eq|intros test].
  by apply preserves_ret, _.
Qed.

(** C5.  When the train file and the test file are both present in the
    cache directory, [_cached_dataset_load] is exactly the parsing of the
    two files: no directory is made, nothing is downloaded, extracted or
    hashed, and the world (file system, requests made) is left as it was. *)
Theorem cached_dataset_load_cached url md5 dataset_name train_file test_file header w :
  let dir_path :=
    os_path_join (os_path_join (cwd w) "catboost_cached_datasets") dataset_name in
  let train_path := os_path_join dir_path train_file in
  let test_path := os_path_join dir_path test_file in
  fs w !! cwd w = Some Dir →
  is_Some (fs w !! resolve w train_path) →
  is_Some (fs w !! resolve w test_path) →
  _cached_dataset_load url md5 dataset_name train_file test_file header w =
    (train <- pd_read_csv train_path (read_opts header) ;;
     test <- pd_read_csv test_path (read_opts header) ;;
     ret (train, test)) w ∧
  (_cached_dataset_load url md5 dataset_name train_file test_file header w).2 = w.
Proof.
  intros dir_path train_path test_path Hcwd [n1 Htrain] [n2 Htest].
  assert (Hrun : _cached_dataset_load url md5 dataset_name train_file test_file header w =
    (train <- pd_read_csv train_path (read_opts header) ;;
     test <- pd_read_csv test_path (read_opts header) ;;
     ret (train, test)) w).
  { unfold _cached_dataset_load, _get_cache_path.
    unfold bind at 1, bind at 1, os_getcwd. rewrite Hcwd. unfold ret at 1.
    fold dir_path. fold train_path. fold test_path.
    unfold bind at 1, os_path_exists at 1, gets. rewrite Htrain.
    unfold bind at 1, os_path_exists at 1, gets. rewrite Htest.
    simpl negb. unfold bind at 1, ret at 1. done. }
  split; [exact Hrun|]. rewrite Hrun.
  symmetry. apply (read_both_eq train_path test_path (read_opts header) w).
Qed.






End loader_props.

(** ** Tables *)

Lemma bind_Ok {A B} (m : M A) (k : A → M B) w b w' :
  bind m k w = (Ok b, w') → ∃ a w1, m w = (Ok a, w1) ∧ k a w1 = (Ok b, w').
Proof. unfold bind. destruct (m w) as [[a|e] w1]; [eauto|done]. Qed.

Ltac inv_bind H :=
  let a := fresh "a" in
  let w := fresh "w" in
  let Hm := fresh "Hm" in
  apply bind_Ok in H; destruct H as (a & w & Hm & H).

Ltac inv_bind_as H Hm :=
  let a := fresh "a" in
  let w := fresh "w" in
  apply bind_Ok in H; destruct H as (a & w & Hm & H).

Lemma is_na_empty na : is_na na EmptyString = true.
Proof.
  unfold is_na. apply bool_decide_eq_true_2.
  apply elem_of_app. right. unfold default_na. apply list_elem_of_here.
Qed.

Lemma last_char_split s :
  s ≠ EmptyString → ∃ c, s = substring 0 (String.length s - 1) s +:+ String c EmptyString.
Proof.
  intros Hs. pose proof (substring_split (String.length s - 1) s) as Hsplit.
  pose proof (substring_rest_length (String.length s - 1) s) as Hlen.
  destruct s as [|c0 s]; [done|]. cbn [String.length] in *.
  replace (S (String.length s) - (S (String.length s) - 1)) with 1 in * by lia.
  destruct (substring (S (String.length s) - 1) 1 (String c0 s)) as [|c [|c' t]];
    try done.
  by exists c.
Qed.

Section table_props.
Context `{Extern}.

Lemma column_cells_ok na fields : Forall cell_ok (column_cells na fields).
Proof.
  unfold column_cells.
  destruct (forallb _ fields); apply Forall_fmap, Forall_forall; intros s _; simpl;
    destruct (is_na na s) eqn:E; try done.
  intros [= ->]. by rewrite is_na_empty in E.
Qed.

Lemma build_frame_ok labels na records : frame_ok (build_frame labels na records).
Proof.
  unfold frame_ok, build_frame. apply Forall_lookup.
  intros j col Hj. apply list_lookup_imap_Some in Hj as (l & _ & ->).
  apply column_cells_ok.
Qed.

Lemma build_frame_labels labels na records :
  (build_frame labels na records).*1 = labels.
Proof.
  unfold build_frame. apply list_eq. intros j.
  rewrite list_lookup_fmap, list_lookup_imap.
  by destruct (labels !! j).
Qed.

Lemma pd_read_csv_names path o ns w df w' :
  names o = Some ns →
  pd_read_csv path o w = (Ok df, w') →
  frame_ok df ∧ df.*1 = LName <$> ns.
Proof.
  intros Hns Hrun. unfold pd_read_csv in Hrun. inv_bind Hrun.
  destruct (csv_records (sep o) a) as [records|]; [|done].
  rewrite Hns in Hrun. injection Hrun as <- <-.
  split; [apply build_frame_ok|apply build_frame_labels].
Qed.

Lemma cast_cells_ok t cells w cells' w' :
  cast_cells t cells w = (Ok cells', w') →
  Forall cell_ok cells → Forall cell_ok cells'.
Proof.
  revert w cells'. induction cells as [|c cells IH]; intros w cells' Hrun Hok.
  - by injection Hrun as <- <-.
  - simpl in Hrun. inv_bind Hrun. inv_bind Hrun. injection Hrun as <- <-.
    apply Forall_cons in Hok as [Hc Hok]. constructor; [|by eapply IH].
    unfold cast_cell in Hm.
    destruct t, c as [| |s]; try (by injection Hm as <- <-).
    destruct (is_numeric s); [|done]. by injection Hm as <- <-.
Qed.

Lemma df_astype_ok dtype df w df' w' :
  df_astype dtype df w = (Ok df', w') →
  frame_ok df → frame_ok df' ∧ df'.*1 = df.*1.
Proof.
  revert w df'. induction df as [|[l cells] df IH]; intros w df' Hrun Hok.
  - by injection Hrun as <- <-.
  - simpl in Hrun. inv_bind Hrun. inv_bind Hrun. injection Hrun as <- <-.
    apply Forall_cons in Hok as [Hc Hok].
    destruct (IH _ _ Hm0 Hok) as [Hok' Hl]. split; [|simpl; by f_equal].
    constructor; [|done]. simpl in *.
    destruct l as [n|i]; [|by injection Hm as <- <-].
    destruct (assoc n dtype) as [t|]; [|by injection Hm as <- <-].
    by eapply cast_cells_ok.
Qed.

Lemma df_column_ok name df cells :
  frame_ok df → df_column name df = Some cells → Forall cell_ok cells.
Proof.
  induction df as [|[l c] df IH]; simpl; [done|]. intros Hok.
  apply Forall_cons in Hok as [Hc Hok]. case_bool_decide; [|by apply IH].
  by intros [= <-].
Qed.

Lemma df_column_set name cells df old :
  df_column name df = Some old →
  df_column name (df_set_column name cells df) = Some cells.
Proof.
  induction df as [|[l c] df IH]; simpl; [done|].
  case_bool_decide as Hl; simpl.
  - by rewrite bool_decide_eq_true_2.
  - by rewrite bool_decide_eq_false_2.
Qed.

Lemma df_set_column_twice name c1 c2 df :
  df_set_column name c2 (df_set_column name c1 df) = df_set_column name c2 df.
Proof.
  induction df as [|[l c] df IH]; simpl; [done|].
  case_bool_decide as Hl; simpl.
  - by rewrite bool_decide_eq_true_2.
  - by rewrite bool_decide_eq_false_2, IH.
Qed.

Lemma df_set_column_labels name cells df :
  (df_set_column name cells df).*1 = df.*1.
Proof.
  induction df as [|[l c] df IH]; simpl; [done|].
  case_bool_decide; [done|]. rewrite !fmap_cons. f_equal. exact IH.
Qed.

Lemma df_set_column_others name cells df j l c :
  df !! j = Some (l, c) → l ≠ LName name →
  df_set_column name cells df !! j = Some (l, c).
Proof.
  revert j. induction df as [|[l0 c0] df IH]; intros j; simpl; [done|].
  destruct j as [|j]; simpl.
  - intros [= -> ->] Hl. by rewrite bool_decide_eq_false_2.
  - intros Hj Hl. case_bool_decide; simpl; [done|by apply IH].
Qed.

End table_props.

(** ** [adult] *)

Section adult_props.
Context `{Extern}.

Lemma adult_load_frames w train_df test_df w' :
  adult_load w = (Ok (train_df, test_df), w') →
  frame_ok test_df ∧ test_df.*1 = LName <$> adult_names.
Proof.
  intros Hrun. unfold adult_load in Hrun.
  do 4 inv_bind Hrun. inv_bind_as Hrun Hread_train. inv_bind_as Hrun Hread.
  inv_bind_as Hrun Hcast_train. inv_bind_as Hrun Hcast. injection Hrun as <- <- <-.
  destruct (pd_read_csv_names _ (adult_opts 1) adult_names _ _ _ eq_refl Hread)
    as [Hok Hl].
  destruct (df_astype_ok _ _ _ _ _ Hcast Hok) as [Hok' Hl'].
  split; [done|congruence].
Qed.

Lemma slice_to_minus_1_Ok c w c' w' :
  slice_to_minus_1 c w = (Ok c', w') →
  w' = w ∧ ∃ s, c = CStr s ∧ c' = CStr (substring 0 (String.length s - 1) s).
Proof. destruct c as [| |s]; try done. intros [= <- <-]. eauto. Qed.

(** The loop over the indices [k, k+1, ..., k+m-1]: the cells before [k]
    are kept, each cell from [k] on is text and loses its last character,
    and no other column is touched. *)
Lemma adult_fix_income_run m : ∀ k df col w df' w',
  df_column "income" df = Some col →
  length col = k + m →
  adult_fix_income (seq k m) df w = (Ok df', w') →
  w' = w ∧ ∃ col',
    df' = df_set_column "income" col' df ∧
    length col' = length col ∧
    (∀ i, (i < k)%nat → col' !! i = col !! i) ∧
    (∀ i c, (k ≤ i)%nat → col !! i = Some c →
       ∃ s, c = CStr s ∧
            col' !! i = Some (CStr (substring 0 (String.length s - 1) s))).
Proof.
  induction m as [|m IH]; intros k df col w df' w' Hcol Hlen Hrun.
  - injection Hrun as <- <-. split; [done|]. exists col. split_and!; try done.
    + clear Hlen. induction df as [|[l c] df IHdf]; simpl in *; [done|].
      case_bool_decide; [by injection Hcol as ->|]. f_equal. by apply IHdf.
    + intros i c Hi Hc. apply lookup_lt_Some in Hc. lia.
  - simpl in Hrun. unfold df_getattr in Hrun. rewrite Hcol in Hrun.
    inv_bind_as Hrun Hget. injection Hget as <- <-.
    inv_bind_as Hrun Hitem. unfold series_getitem in Hitem.
    destruct (col !! k) as [c|] eqn:Hk; [|done]. injection Hitem as <- <-.
    inv_bind_as Hrun Hslice. apply slice_to_minus_1_Ok in Hslice as (-> & s & -> & ->).
    inv_bind_as Hrun Hget. injection Hget as <- <-.
    set (v' := CStr (substring 0 (String.length s - 1) s)) in *.
    apply (IH (S k) _ (<[k := v']> col)) in Hrun as (-> & col' & -> & Hlen' & Hlt & Hge).
    + split; [done|]. exists col'. rewrite df_set_column_twice.
      rewrite length_insert in Hlen'. split_and!; try done.
      * intros i Hi. rewrite Hlt by lia. apply list_lookup_insert_ne. lia.
      * intros i c Hi Hc. destruct (decide (i = k)) as [->|Hne].
        -- rewrite Hlt by lia. rewrite list_lookup_insert_eq by (rewrite Hlen; lia).
           exists s. split; [congruence|done].
        -- apply (Hge i c); [lia|]. rewrite list_lookup_insert_ne by done. done.
    + by eapply df_column_set.
    + rewrite length_insert. lia.
Qed.

(** C8.  When [adult] returns, its train table is the parsed and cast train
    table as it is; its test table has the columns of the parsed and cast
    test table, every column other than [income] with the same values, and
    every value of [income] is the parsed value without its one last
    character. *)
Theorem adult_income_trailing_char_removed w train_df test_df w' :
  adult w = (Ok (train_df, test_df), w') →
  ∃ parsed_test,
    adult_load w = (Ok (train_df, parsed_test), w') ∧
    test_df.*1 = LName <$> adult_names ∧
    parsed_test.*1 = LName <$> adult_names ∧
    (∀ j l cells, parsed_test !! j = Some (l, cells) → l ≠ LName "income" →
       test_df !! j = Some (l, cells)) ∧
    ∃ raw fixed,
      df_column "income" parsed_test = Some raw ∧
      df_column "income" test_df = Some fixed ∧
      Forall2 last_char_removed raw fixed.
Proof.
  intros Hrun. unfold adult in Hrun. inv_bind_as Hrun Hload. destruct a as [tr te].
  inv_bind_as Hrun Hget. unfold df_getattr in Hget.
  destruct (df_column "income" te) as [raw|] eqn:Hraw; [|done].
  injection Hget as <- <-. inv_bind_as Hrun Hloop. injection Hrun as <- <- <-.
  apply (adult_fix_income_run _ 0 te raw) in Hloop
    as (-> & fixed & -> & Hlen & _ & Hfix); [|done|done].
  destruct (adult_load_frames _ _ _ _ Hload) as [Hok Hlabels].
  exists te. split_and!; try done.
  - by rewrite df_set_column_labels.
  - intros j l cells Hj Hl. by apply df_set_column_others.
  - exists raw, fixed. split_and!; [done|by eapply df_column_set|].
    apply Forall2_same_length_lookup. split; [done|].
    intros i c c' Hc Hc'. destruct (Hfix i c (Nat.le_0_l i) Hc) as (s & -> & Hs).
    rewrite Hs in Hc'. injection Hc' as <-.
    pose proof (df_column_ok _ _ _ Hok Hraw) as Hcells.
    rewrite Forall_lookup in Hcells. specialize (Hcells i _ Hc).
    destruct (last_char_split s) as [ch Hch]; [by intros ->|].
    exists (substring 0 (String.length s - 1) s), ch. split; [by f_equal|done].
Qed.

End adult_props.

(** ** The statements at concrete worlds *)

Lemma ensure_dir_exists_tolerates_existing_witness :
  _ensure_dir_exists demo_home (demo_world no_mirror) = (Ok tt, demo_world no_mirror) ∧
  _ensure_dir_exists "cache" readonly_world =
    (Raise (os_error "Permission denied" "/home/user/cache"), readonly_world) ∧
  os_path_isdir "cache" (_ensure_dir_exists "cache" (demo_world no_mirror)).2 =
    (Ok true, (_ensure_dir_exists "cache" (demo_world no_mirror)).2).
Proof.
  split; [|split].
  - apply (proj1 (ensure_dir_exists_tolerates_existing demo_home (demo_world no_mirror))).
    vm_compute. reflexivity.
  - apply (proj1 (proj2 (ensure_dir_exists_tolerates_existing "cache" readonly_world)));
      vm_compute; reflexivity.
  - apply (proj2 (proj2 (ensure_dir_exists_tolerates_existing "cache" (demo_world no_mirror)))).
    vm_compute. reflexivity.
Defined.



Lemma cached_download_valid_noop_witness :
  let w := adult_cached_world in
  let dst := "/home/user/catboost_cached_datasets/adult/train.csv" in
  let md5 := "5d7c39d7b8804f071cdd1f2a7c460872" in
  valid_at (H := demo_extern) dst md5 w ∧
  _cached_download (H := demo_extern) (UTuple adult_train_urls) md5 dst w = (Ok tt, w).
Proof.
  intros w dst md5.
  assert (Hv : valid_at (H := demo_extern) dst md5 w).
  { exists demo_train_part. split; vm_compute; reflexivity. }
  split; [exact Hv|].
  exact (proj1 (cached_download_valid_noop (H := demo_extern)
                  (UTuple adult_train_urls) md5 dst w Hv)).
Defined.

Lemma cached_download_mismatch_stops_witness :
  let w := demo_world (serves "corrupt") in
  ∃ w',
    _cached_download (H := demo_extern)
      (UTuple ["https://a.example/d.tgz"; "https://b.example/d.tgz"])
      "0123" "/home/user/d.tgz" w =
      (Raise (Exn RuntimeError
                [PStr "md5 sum mismatch; expected 0123, but got md5-of-corrupt"]), w') ∧
    requests w' = ["https://a.example/d.tgz"] ∧
    fs w' !! "/home/user/d.tgz" = Some (File "corrupt").
Proof.
  intros w.
  assert (Hstale : ¬ valid_at (H := demo_extern) "/home/user/d.tgz" "0123" w).
  { intros (data & Hf & _). vm_compute in Hf. discriminate. }
  assert (Hdst : fs w !! resolve w "/home/user/d.tgz" ≠ Some Dir).
  { vm_compute. discriminate. }
  assert (Hne : md5_hexdigest (Extern := demo_extern) "corrupt" ≠ "0123").
  { vm_compute. discriminate. }
  exact (cached_download_mismatch_stops (H := demo_extern)
           (UTuple ["https://a.example/d.tgz"; "https://b.example/d.tgz"])
           "0123" "/home/user/d.tgz" w [] "https://a.example/d.tgz"
           ["https://b.example/d.tgz"] w "corrupt"
           Hstale eq_refl eq_refl eq_refl Hdst Hne).
Defined.

Lemma cached_dataset_load_cached_witness :
  (titanic (H := demo_extern) titanic_cached_world).2 = titanic_cached_world.
Proof.
  apply (cached_dataset_load_cached (H := demo_extern)).
  - vm_compute. reflexivity.
  - eexists. vm_compute. reflexivity.
  - eexists. vm_compute. reflexivity.
Defined.



Lemma adult_income_trailing_char_removed_witness :
  let run := adult (H := demo_extern) adult_cached_world in
  ∃ train_df test_df,
    run = (Ok (train_df, test_df), run.2) ∧
    ∃ raw,
      df_column "income" test_df = Some [CStr "<=50K"; CStr ">50K"] ∧
      Forall2 last_char_removed raw [CStr "<=50K"; CStr ">50K"].
Proof.
  intros run.
  destruct run as [[[train_df test_df]|e] w'] eqn:Hrun;
    [|exfalso; apply (f_equal fst) in Hrun; vm_compute in Hrun; discriminate].
  exists train_df, test_df. split; [reflexivity|].
  destruct (adult_income_trailing_char_removed (H := demo_extern)
              adult_cached_world train_df test_df w' Hrun)
    as (parsed & _ & _ & _ & _ & raw & fixed & _ & Hfixed & Hall).
  assert (Hcol : df_column "income" test_df = Some [CStr "<=50K"; CStr ">50K"]).
  { apply (f_equal (λ r, match r.1 with
                         | Ok (_, te) => df_column "income" te
                         | Raise _ => None
                         end)) in Hrun.
    vm_compute in Hrun. symmetry. exact Hrun. }
  exists raw. split; [exact Hcol|]. rewrite Hcol in Hfixed. by injection Hfixed as <-.
Defined.

(** * Further properties *)

(** ** [_calc_md5] *)

Section calc_md5_more.
Context `{Extern}.

(** X1.  [_calc_md5] on a regular file returns the digest of the whole
    content, however many 64 KiB blocks the read loop takes, and changes
    nothing; on a path that is not a regular file it raises an [OSError] and
    changes nothing. *)
Theorem calc_md5_whole_file path w :
  (∀ data, fs w !! resolve w path = Some (File data) →
     _calc_md5 path w = (Ok (md5_hexdigest data), w)) ∧
  ((∀ data, fs w !! resolve w path ≠ Some (File data)) →
     ∃ e, _calc_md5 path w = (Raise e, w) ∧ isinstance e OSError = true).
Proof.
  split.
  - intros data Hf. unfold _calc_md5, bind, read_file, ret. rewrite Hf.
    f_equal. f_equal. f_equal. apply md5_read_loop_all. lia.
  - intros Hnf. unfold _calc_md5, bind, read_file.
    destruct (fs w !! resolve w path) as [[data|]|] eqn:E.
    + by destruct (Hnf data).
    + eexists. split; reflexivity.
    + eexists. split; reflexivity.
Qed.

End calc_md5_more.

(** ** [_cached_download]: requests and outcomes *)

Lemma urlretrieve_requests u dst w :
  requests (urlretrieve u dst w).2 = (requests w ++ [u])%list.
Proof.
  unfold urlretrieve, bind, gets, modify.
  destruct (net w (length (requests w)) u) as [body|e [data|]]; simpl; try done.
  - unfold write_file. by destruct (fs _ !! _) as [[d|]|].
  - unfold write_file. by destruct (fs _ !! _) as [[d|]|].
Qed.

#[global] Instance only_at_preorder dst : PreOrder (only_at dst).
Proof.
  split.
  - by intros w.
  - intros w1 w2 w3 (Hc & Hm & Hfs) (Hc' & Hm' & Hfs'). split_and!; [congruence..|].
    intros p Hp. rewrite Hfs', Hfs; [done|done|].
    by rewrite (resolve_same_cwd w1 w2 dst Hc).
Qed.

Section download_more.
Context `{Extern}.

(** With a destination that is not valid and at least one mirror, the loop
    ends after the first [urlretrieve], by [break] or by the failing handler
    clause, and nothing after the loop changes the world. *)
Lemma cached_download_world_first url md5 dst w u rest :
  ¬ valid_at dst md5 w →
  iter (urls_of url) = u :: rest →
  (_cached_download url md5 dst w).2 = (urlretrieve u dst w).2.
Proof.
  intros Hstale Hurls. unfold _cached_download.
  rewrite cached_download_with_stale by done. rewrite Hurls.
  unfold bind at 1. simpl download_loop. unfold bind at 1, try_except, bind at 1.
  destruct (urlretrieve u dst w) as [[[]|e] w1]; [|done].
  unfold ret at 1, ret at 1, bind at 1, ret at 1. unfold bind.
  pose proof (calc_md5_eq dst w1) as Hmd5.
  destruct (_calc_md5 dst w1) as [[d|e] w2]; simpl in *; subst w2; [|done].
  by case_bool_decide.
Qed.

(** X2.  When the destination does not hold a valid file and there is at
    least one mirror, [_cached_download] makes exactly one request, to the
    first mirror: no later mirror is ever contacted, whatever the first
    transfer does. *)
Theorem cached_download_one_request url md5 dst w u rest :
  ¬ valid_at dst md5 w →
  iter (urls_of url) = u :: rest →
  requests (_cached_download url md5 dst w).2 = (requests w ++ [u])%list.
Proof.
  intros Hstale Hurls.
  rewrite (cached_download_world_first url md5 dst w u rest Hstale Hurls).
  apply urlretrieve_requests.
Qed.

(** X3.  When the destination is not valid and the first mirror serves data
    of the expected digest, [_cached_download] returns with the data at the
    destination; the destination is then valid, and calling again is a
    no-op. *)
Theorem cached_download_fetches url md5 dst w u rest body :
  ¬ valid_at dst md5 w →
  iter (urls_of url) = u :: rest →
  net w (length (requests w)) u = Served body →
  fs w !! resolve w dst ≠ Some Dir →
  md5_hexdigest body = md5 →
  let w' := set_fs (insert (resolve w dst) (File body)) (log_request u w) in
  _cached_download url md5 dst w = (Ok tt, w') ∧
  valid_at dst md5 w' ∧
  _cached_download url md5 dst w' = (Ok tt, w').
Proof.
  intros Hstale Hurls Hnet Hdst Hmd5 w'.
  assert (Hfile : fs w' !! resolve w' dst = Some (File body)).
  { change (resolve w' dst) with (resolve w dst). simpl. apply lookup_insert_eq. }
  assert (Hvalid : valid_at dst md5 w') by by exists body.
  split; [|split; [exact Hvalid|by apply cached_download_with_valid]].
  unfold _cached_download. rewrite cached_download_with_stale by done.
  rewrite Hurls. unfold bind at 1.
  rewrite (download_loop_served _ _ _ _ _ _ Hnet Hdst). fold w'.
  unfold bind at 1, ret at 1, bind at 1.
  rewrite (calc_md5_file dst w' body Hfile).
  by rewrite bool_decide_eq_false_2 by (intros Hne; by apply Hne).
Qed.

(** X4.  With no mirror at all (an empty list or tuple) and no valid file at
    the destination, [_cached_download] raises
    [RuntimeError('failed to download from %s', urls)] without any request
    and without touching the file system. *)
Theorem cached_download_no_mirrors url md5 dst w :
  ¬ valid_at dst md5 w →
  iter (urls_of url) = [] →
  _cached_download url md5 dst w =
    (Raise (Exn RuntimeError [PStr "failed to download from %s"; urls_of url]), w).
Proof.
  intros Hstale Hurls. unfold _cached_download.
  rewrite cached_download_with_stale by done. by rewrite Hurls.
Qed.

Lemma write_file_only_at dst data : preserves (only_at dst) (write_file dst data).
Proof.
  intros w. unfold write_file.
  destruct (fs w !! resolve w dst) as [[d|]|]; simpl; split_and!; try done;
    intros p Hp; simpl; by rewrite lookup_insert_ne.
Qed.

Lemma urlretrieve_only_at u dst : preserves (only_at dst) (urlretrieve u dst).
Proof.
  intros w. unfold urlretrieve, bind, gets, modify.
  destruct (net w (length (requests w)) u) as [body|e [data|]]; try done.
  - apply (write_file_only_at dst body (log_request u w)).
  - pose proof (write_file_only_at dst data (log_request u w)) as Hw.
    by destruct (write_file dst data (log_request u w)) as [[[]|e'] w1].
Qed.

(** X5.  [_cached_download] touches nothing but its destination: every
    other path of the file system, the working directory and the modes are
    afterwards as they were, whether it returns or raises; and a regular
    file at the destination is still a regular file (possibly with new
    data). *)
Theorem cached_download_touches_only_destination url md5 dst w :
  let after := (_cached_download url md5 dst w).2 in
  (∀ p, p ≠ resolve w dst → fs after !! p = fs w !! p) ∧
  cwd after = cwd w ∧
  modes after = modes w ∧
  (∀ data, fs w !! resolve w dst = Some (File data) →
     ∃ d, fs after !! resolve w dst = Some (File d)).
Proof.
  intros after.
  assert (Hd : preserves (only_at dst) (_cached_download url md5 dst)).
  { apply cached_download_with_preserves;
      [apply _| |intros u; apply urlretrieve_only_at].
    apply eq_preserves; [apply _|apply except_URLError_IOError_eq]. }
  destruct (Hd w) as (Hc & Hm & Hfs). fold after in Hc, Hm, Hfs.
  split_and!; [done|done|done|].
  intros data Hf.
  pose proof (cached_download_nodes_kept url md5 dst w (resolve w dst)) as Hk.
  fold after in Hk. unfold node_kept in Hk. by rewrite Hf in Hk.
Qed.

End download_more.

(** ** [_extract]: where the archive is read and what is written *)


Section extract_more.
Context `{Extern}.


(** X7.  When the destination is not a directory, [_extract] raises an
    [OSError] before anything is opened or written: the world is unchanged. *)
Theorem extract_into_missing_dir src_file dst_dir w :
  fs w !! resolve w dst_dir ≠ Some Dir →
  ∃ e, _extract src_file dst_dir w = (Raise e, w) ∧ isinstance e OSError = true.
Proof.
  intros Hdst. unfold _extract, bind at 1, os_getcwd.
  destruct (fs w !! cwd w) as [[d|]|]; try (eexists; split; reflexivity).
  unfold bind at 1, os_chdir at 1.
  destruct (fs w !! resolve w dst_dir) as [[d|]|]; try done;
    eexists; split; reflexivity.
Qed.

End extract_more.

(** ** [_ensure_dir_exists]: files in the way, repetition *)

#[global] Instance same_outside_preorder touched : PreOrder (same_outside touched).
Proof.
  split; [by intros w q|].
  intros w1 w2 w3 H12 H23 q Hq. by rewrite (H23 q Hq), (H12 q Hq).
Qed.

(** X9.  [_ensure_dir_exists] raises the [FileExistsError] of [makedirs]
    when the path is a regular file; when it returns normally it has touched
    nothing but the directory and its ancestors, and calling it again
    returns normally and changes nothing. *)
Theorem ensure_dir_exists_file_and_again path w :
  (∀ data, fs w !! resolve w path = Some (File data) →
     _ensure_dir_exists path w = (Raise (os_error "File exists" path), w)) ∧
  (∀ w', _ensure_dir_exists path w = (Ok tt, w') →
     (∀ q, q ≠ resolve w path → q ∉ ancestors (resolve w path) →
        fs w' !! q = fs w !! q) ∧
     _ensure_dir_exists path w' = (Ok tt, w')).
Proof.
  split.
  - intros data Hf. rewrite ensure_dir_exists_run. unfold os_makedirs.
    rewrite Hf. simpl. by rewrite Hf.
  - intros w' Hrun.
    assert (Hw' : w' = (os_makedirs path w).2 ∧ fs w' !! resolve w' path = Some Dir).
    { rewrite ensure_dir_exists_run in Hrun.
      destruct (os_makedirs path w) as [[[]|e] w1] eqn:Hmk.
      - injection Hrun as <-. split; [done|].
        destruct (os_makedirs_Ok _ _ _ Hmk) as [Hd Hc].
        by rewrite (resolve_same_cwd w w1 path Hc).
      - destruct (isinstance e OSError); [|done].
        destruct (fs w1 !! resolve w1 path) as [[d|]|] eqn:E; try done.
        by injection Hrun as <-. }
    destruct Hw' as [Hw' Hd]. split.
    + intros q Hq Ha. rewrite Hw'.
      apply (os_makedirs_frame
               (same_outside (λ q, q = resolve w path ∨ q ∈ ancestors (resolve w path)))
               (λ q, q = resolve w path ∨ q ∈ ancestors (resolve w path))).
      * intros w0 p Hp _ r Hr. simpl. rewrite lookup_insert_ne; [done|].
        by intros <-.
      * by left.
      * apply Forall_forall. intros r Hr. by right.
      * by intros [?|?].
    + rewrite ensure_dir_exists_run. unfold os_makedirs. rewrite Hd. simpl.
      by rewrite Hd.
Qed.

(** ** [adult]: schema, missing labels, valid cache *)

#[global] Instance same_requests_preorder : PreOrder same_requests.
Proof. split; unfold same_requests; [done|intros ???; congruence]. Qed.

Section adult_more.
Context `{Extern}.

Lemma cast_cell_eq t c : preserves eq (cast_cell t c).
Proof.
  intros w. unfold cast_cell. destruct t, c as [| |s]; try done.
  by destruct (is_numeric s).
Qed.

Lemma cast_cells_eq t cells : preserves eq (cast_cells t cells).
Proof.
  induction cells as [|c cells IH]; simpl; [by apply preserves_ret, _|].
  apply preserves_bind; [apply _|apply cast_cell_eq|intros c'].
  apply preserves_bind; [apply _|done|intros rest']. by apply preserves_ret, _.
Qed.

Lemma df_astype_eq dtype df : preserves eq (df_astype dtype df).
Proof.
  induction df as [|[l cells] df IH]; simpl; [by apply preserves_ret, _|].
  apply preserves_bind; [apply _| |intros cells'].
  - destruct l as [n|i]; [|by apply preserves_ret, _].
    destruct (assoc n dtype); [apply cast_cells_eq|by apply preserves_ret, _].
  - apply preserves_bind; [apply _|done|intros rest']. by apply preserves_ret, _.
Qed.

Lemma df_getattr_eq df name : preserves eq (df_getattr df name).
Proof. intros w. unfold df_getattr. by destruct (df_column name df). Qed.

Lemma adult_fix_income_eq indices : ∀ df, preserves eq (adult_fix_income indices df).
Proof.
  induction indices as [|i indices IH]; intros df; simpl; [by apply preserves_ret, _|].
  apply preserves_bind; [apply _|apply df_getattr_eq|intros income].
  apply preserves_bind; [apply _| |intros v].
  { intros w. unfold series_getitem. by destruct (income !! i). }
  apply preserves_bind; [apply _| |intros v'].
  { intros w. by destruct v. }
  apply preserves_bind; [apply _|apply df_getattr_eq|intros income']. apply IH.
Qed.

Lemma cast_cells_float cells : ∀ w cells' w',
  cast_cells true cells w = (Ok cells', w') → Forall not_text cells'.
Proof.
  induction cells as [|c cells IH]; intros w cells' w' Hrun.
  - by injection Hrun as <- <-.
  - simpl in Hrun. inv_bind_as Hrun Hc. inv_bind_as Hrun Hrest.
    injection Hrun as <- <-. constructor; [|by eapply IH].
    unfold cast_cell in Hc. destruct c as [| |s].
    + injection Hc as <- <-. by intros s.
    + injection Hc as <- <-. by intros s.
    + destruct (is_numeric s); [|done]. injection Hc as <- <-. by intros s'.
Qed.

Lemma df_astype_float dtype df : ∀ w df' w' n cells,
  df_astype dtype df w = (Ok df', w') →
  (LName n, cells) ∈ df' → assoc n dtype = Some true → Forall not_text cells.
Proof.
  induction df as [|[l old] df IH]; intros w df' w' n cells Hrun Hin Hn.
  - injection Hrun as <- <-. by apply elem_of_nil in Hin.
  - simpl in Hrun. inv_bind_as Hrun Hc. inv_bind_as Hrun Hrest.
    injection Hrun as <- <-. apply elem_of_cons in Hin as [[= <- <-]|Hin].
    + rewrite Hn in Hc. by eapply cast_cells_float.
    + by eapply IH.
Qed.

Lemma df_set_column_elem name new df l cells :
  (l, cells) ∈ df_set_column name new df → l = LName name ∨ (l, cells) ∈ df.
Proof.
  induction df as [|[l0 c0] df IH]; simpl; [by right|].
  case_bool_decide as Hl.
  - intros [[= -> ->]|Hin]%elem_of_cons; [by left|]. right. by right.
  - intros [[= -> ->]|Hin]%elem_of_cons; [right; by left|].
    destruct (IH Hin); [by left|]. right. by right.
Qed.

Lemma adult_load_schema w train_df test_df w' :
  adult_load w = (Ok (train_df, test_df), w') →
  train_df.*1 = LName <$> adult_names ∧
  ∀ n cells, assoc n adult_dtype = Some np_float →
    (LName n, cells) ∈ train_df ∨ (LName n, cells) ∈ test_df →
    Forall not_text cells.
Proof.
  intros Hrun. unfold adult_load in Hrun.
  do 4 inv_bind Hrun. inv_bind_as Hrun Hread_train. inv_bind_as Hrun Hread.
  inv_bind_as Hrun Hcast_train. inv_bind_as Hrun Hcast. injection Hrun as <- <- <-.
  destruct (pd_read_csv_names _ (adult_opts 0) adult_names _ _ _ eq_refl Hread_train)
    as [Hok Hl].
  destruct (df_astype_ok _ _ _ _ _ Hcast_train Hok) as [_ Hl'].
  split; [congruence|]. intros n cells Hn [Hin|Hin].
  - by eapply (df_astype_float _ _ _ _ _ _ _ Hcast_train).
  - by eapply (df_astype_float _ _ _ _ _ _ _ Hcast).
Qed.

(** From the outcome of [adult] back to the outcome of its loading part and
    of the loop over the labels. *)
Lemma adult_Ok w train_df test_df w' :
  adult w = (Ok (train_df, test_df), w') →
  ∃ parsed_test fixed,
    adult_load w = (Ok (train_df, parsed_test), w') ∧
    test_df = df_set_column "income" fixed parsed_test.
Proof.
  intros Hrun. unfold adult in Hrun. inv_bind_as Hrun Hload. destruct a as [tr te].
  inv_bind_as Hrun Hget. unfold df_getattr in Hget.
  destruct (df_column "income" te) as [raw|] eqn:Hraw; [|done].
  injection Hget as <- <-. inv_bind_as Hrun Hloop. injection Hrun as <- <- <-.
  apply (adult_fix_income_run _ 0 te raw) in Hloop
    as (-> & fixed & -> & _); [|done|done].
  by exists te, fixed.
Qed.

(** X10.  When [adult] returns, both tables have exactly the fifteen
    documented column names, in order, and in every column cast to
    [np.float] each value is a number or missing, never text. *)
Theorem adult_schema w train_df test_df w' :
  adult w = (Ok (train_df, test_df), w') →
  train_df.*1 = LName <$> adult_names ∧
  test_df.*1 = LName <$> adult_names ∧
  length train_df = 15 ∧ length test_df = 15 ∧
  ∀ n cells, assoc n adult_dtype = Some np_float →
    (LName n, cells) ∈ train_df ∨ (LName n, cells) ∈ test_df →
    Forall not_text cells.
Proof.
  intros Hrun. apply adult_Ok in Hrun as (te & fixed & Hload & ->).
  destruct (adult_load_schema _ _ _ _ Hload) as [Htrain Hfloat].
  destruct (adult_load_frames _ _ _ _ Hload) as [_ Htest].
  assert (Htest' : (df_set_column "income" fixed te).*1 = LName <$> adult_names)
    by by rewrite df_set_column_labels.
  split_and!; try done.
  - apply (f_equal length) in Htrain. by rewrite length_fmap in Htrain.
  - apply (f_equal length) in Htest'. by rewrite length_fmap in Htest'.
  - intros n cells Hn [Hin|Hin]; [by apply (Hfloat n cells Hn); left|].
    apply df_set_column_elem in Hin as [[= ->]|Hin]; [done|].
    apply (Hfloat n cells Hn). by right.
Qed.

Lemma adult_fix_income_raises m : ∀ k df col w i c,
  df_column "income" df = Some col →
  length col = k + m →
  (k ≤ i)%nat → col !! i = Some c → not_text c →
  ∃ e, adult_fix_income (seq k m) df w = (Raise e, w) ∧ exn_cls e = TypeError.
Proof.
  induction m as [|m IH]; intros k df col w i c Hcol Hlen Hki Hi Hc.
  - apply lookup_lt_Some in Hi. lia.
  - simpl. unfold df_getattr. rewrite Hcol. unfold bind at 1, ret at 1.
    unfold bind at 1, series_getitem.
    destruct (col !! k) as [ck|] eqn:Hk;
      [|apply lookup_ge_None in Hk; lia].
    unfold ret at 1. unfold bind at 1.
    destruct ck as [| |s].
    + eexists. split; reflexivity.
    + eexists. split; reflexivity.
    + simpl slice_to_minus_1. unfold ret at 1, bind at 1, ret at 1.
      assert (Hne : i ≠ k) by (intros ->; rewrite Hk in Hi; injection Hi as <-; by eapply Hc).
      apply (IH (S k) _ (<[k := CStr (substring 0 (String.length s - 1) s)]> col) w i c).
      * by eapply df_column_set.
      * rewrite length_insert. lia.
      * lia.
      * by rewrite list_lookup_insert_ne.
      * done.
Qed.

(** X11.  When the parsed test table has a label that is not text (a
    missing value, as for a [?] field, or a number), [adult] does not return:
    the loop over the labels raises a [TypeError] at the slice, after the
    downloads and the parsing have been done. *)
Theorem adult_missing_label_raises w train_df parsed_test w1 labels c :
  adult_load w = (Ok (train_df, parsed_test), w1) →
  df_column "income" parsed_test = Some labels →
  c ∈ labels → not_text c →
  ∃ e, adult w = (Raise e, w1) ∧ exn_cls e = TypeError.
Proof.
  intros Hload Hcol Hin Hc. apply list_elem_of_lookup in Hin as [i Hi].
  unfold adult, bind at 1. rewrite Hload. unfold bind at 1, df_getattr.
  rewrite Hcol. unfold ret at 1, bind at 1.
  destruct (adult_fix_income_raises (length labels) 0 parsed_test labels w1 i c)
    as (e & -> & He); try done; [lia|]. by exists e.
Qed.

(** X12.  When the cache directory exists and both parts in it have the
    expected digests, [adult] makes no request and changes nothing: the
    world after the call is the world before it. *)
Theorem adult_valid_cache_no_network w :
  let dir_path :=
    os_path_join (os_path_join (cwd w) "catboost_cached_datasets") "adult" in
  fs w !! cwd w = Some Dir →
  fs w !! resolve w dir_path = Some Dir →
  valid_at (os_path_join dir_path "train.csv") "5d7c39d7b8804f071cdd1f2a7c460872" w →
  valid_at (os_path_join dir_path "test.csv") "35238206dfdf7f1fe215bbb874adecdc" w →
  (adult w).2 = w.
Proof.
  intros dir_path Hcwd Hdir Htrain Htest.
  assert (Hload : (adult_load w).2 = w).
  { unfold adult_load, _get_cache_path.
    unfold bind at 1, bind at 1, os_getcwd. rewrite Hcwd. unfold ret at 1.
    fold dir_path. unfold bind at 1. rewrite ensure_dir_exists_run.
    unfold os_makedirs. rewrite Hdir.
    change (isinstance (os_error "File exists" dir_path) OSError) with true.
    cbv iota. rewrite Hdir.
    unfold bind at 1, _cached_download.
    rewrite (cached_download_with_valid _ _ _ _ w Htrain).
    unfold bind at 1.
    rewrite (cached_download_with_valid _ _ _ _ w Htest).
    symmetry.
    apply (preserves_bind eq); [apply pd_read_csv_eq|intros train_df].
    apply (preserves_bind eq); [apply pd_read_csv_eq|intros test_df].
    apply (preserves_bind eq); [apply df_astype_eq|intros train_df'].
    apply (preserves_bind eq); [apply df_astype_eq|intros test_df'].
    by apply preserves_ret, _. }
  unfold adult, bind at 1.
  destruct (adult_load w) as [[[tr te]|e] w1]; simpl in Hload; subst w1; [|done].
  symmetry.
  apply (preserves_bind eq); [apply df_getattr_eq|intros income].
  apply (preserves_bind eq); [apply adult_fix_income_eq|intros test_df].
  by apply preserves_ret, _.
Qed.

End adult_more.

(** ** Which requests a call can make *)

Lemma requests_within_same a w w' : same_requests w w' → requests_within a w w'.
Proof.
  intros Hs. exists []. split; [by rewrite app_nil_r|apply sublist_nil_l].
Qed.

Lemma requests_within_trans a1 a2 w1 w2 w3 :
  requests_within a1 w1 w2 → requests_within a2 w2 w3 →
  requests_within (a1 ++ a2) w1 w3.
Proof.
  intros (l1 & H1 & Hs1) (l2 & H2 & Hs2). exists (l1 ++ l2)%list. split.
  - by rewrite H2, H1, app_assoc.
  - by apply sublist_app.
Qed.

Lemma requests_within_then_same a w1 w2 w3 :
  requests_within a w1 w2 → same_requests w2 w3 → requests_within a w1 w3.
Proof. intros (l & Hl & Hs) H23. exists l. split; [by rewrite H23|done]. Qed.

Lemma same_then_requests_within a w1 w2 w3 :
  same_requests w1 w2 → requests_within a w2 w3 → requests_within a w1 w3.
Proof. intros H12 (l & Hl & Hs). exists l. split; [by rewrite Hl, H12|done]. Qed.

Lemma within_bind {A B} a1 a2 (m : M A) (k : A → M B) :
  preserves (requests_within a1) m → (∀ x, preserves (requests_within a2) (k x)) →
  preserves (requests_within (a1 ++ a2)) (bind m k).
Proof.
  intros Hm Hk w. unfold bind. specialize (Hm w).
  destruct (m w) as [[x|e] w1]; simpl in *.
  - eapply requests_within_trans; [exact Hm|apply Hk].
  - destruct Hm as (l & Hl & Hs). exists l. split; [done|].
    by apply sublist_inserts_r.
Qed.

Lemma within_bind_l {A B} a (m : M A) (k : A → M B) :
  preserves same_requests m → (∀ x, preserves (requests_within a) (k x)) →
  preserves (requests_within a) (bind m k).
Proof.
  intros Hm Hk w. unfold bind. specialize (Hm w).
  destruct (m w) as [[x|e] w1]; simpl in *.
  - eapply same_then_requests_within; [exact Hm|apply Hk].
  - by apply requests_within_same.
Qed.

Lemma within_bind_r {A B} a (m : M A) (k : A → M B) :
  preserves (requests_within a) m → (∀ x, preserves same_requests (k x)) →
  preserves (requests_within a) (bind m k).
Proof.
  intros Hm Hk w. unfold bind. specialize (Hm w).
  destruct (m w) as [[x|e] w1]; simpl in *; [|done].
  eapply requests_within_then_same; [exact Hm|apply Hk].
Qed.

Lemma within_try_finally {A} a (body : M A) cleanup :
  preserves (requests_within a) body → preserves same_requests cleanup →
  preserves (requests_within a) (try_finally body cleanup).
Proof.
  intros Hb Hc w. unfold try_finally. specialize (Hb w).
  destruct (body w) as [r w1]. simpl in Hb. specialize (Hc w1).
  destruct (cleanup w1) as [[[]|e] w2]; simpl in *;
    by eapply requests_within_then_same.
Qed.

Lemma os_chdir_same_requests p : preserves same_requests (os_chdir p).
Proof.
  intros w. unfold os_chdir.
  destruct (fs w !! resolve w p) as [[d|]|]; try done.
  by destruct (reachable w (resolve w p)).
Qed.

Lemma write_file_same_requests p data : preserves same_requests (write_file p data).
Proof. intros w. unfold write_file. by destruct (fs w !! resolve w p) as [[d|]|]. Qed.

Lemma os_makedirs_same_requests p : preserves same_requests (os_makedirs p).
Proof. apply os_makedirs_preserves; [apply _|]. by intros w q _. Qed.

Lemma os_remove_same_requests p : preserves same_requests (os_remove p).
Proof.
  intros w. unfold os_remove.
  destruct (fs w !! resolve w p) as [[d|]|]; try done.
  by destruct (may_unlink w (resolve w p)).
Qed.

Lemma ensure_dir_exists_same_requests path :
  preserves same_requests (_ensure_dir_exists path).
Proof.
  unfold _ensure_dir_exists. apply preserves_try_except; [apply _|..].
  - apply os_makedirs_same_requests.
  - by apply preserves_ret, _.
  - intros e. apply preserves_bind; [apply _|by apply preserves_gets, _|].
    intros []; [by apply preserves_ret, _|by apply preserves_raise, _].
Qed.

Lemma tempfile_mkstemp_same_requests : preserves same_requests tempfile_mkstemp.
Proof.
  intros w. unfold tempfile_mkstemp, bind, gets.
  induction (take TMP_MAX (tmp_seq w)) as [|name names IH]; simpl; [done|].
  by destruct (fs w !! ("/tmp/tmp" +:+ name)).
Qed.

Section requests_more.
Context `{Extern}.

Lemma extract_same_requests src dst : preserves same_requests (_extract src dst).
Proof.
  unfold _extract. apply preserves_bind; [apply _| |intros cur_dir].
  - apply eq_preserves; [apply _|apply os_getcwd_eq].
  - apply preserves_bind; [apply _|apply os_chdir_same_requests|intros _].
    apply preserves_try_finally; [apply _| |apply os_chdir_same_requests].
    apply extract_body_preserves; [apply _| |done]. intros m.
    apply extract_member_preserves;
      [apply _|by intros w q _|apply write_file_same_requests].
Qed.

Lemma cached_download_within url md5 dst :
  preserves (requests_within (take 1 (iter (urls_of url))))
    (_cached_download url md5 dst).
Proof.
  intros w.
  assert (Hcase : valid_at dst md5 w ∨ ¬ valid_at dst md5 w).
  { unfold valid_at. destruct (fs w !! resolve w dst) as [[data|]|] eqn:E.
    - destruct (decide (md5_hexdigest data = md5)) as [Hd|Hd]; [left; eauto|].
      right. intros (d & [= <-] & Hm). done.
    - right. by intros (d & Hf & _).
    - right. by intros (d & Hf & _). }
  destruct Hcase as [Hv|Hstale].
  - unfold _cached_download. rewrite (cached_download_with_valid _ _ _ _ _ Hv).
    by apply requests_within_same.
  - destruct (iter (urls_of url)) as [|u rest] eqn:Hurls.
    + unfold _cached_download. rewrite cached_download_with_stale by done.
      rewrite Hurls. by apply requests_within_same.
    + rewrite (cached_download_world_first url md5 dst w u rest Hstale Hurls).
      exists [u]. split; [apply urlretrieve_requests|done].
Qed.

Lemma pd_read_csv_same_requests path o : preserves same_requests (pd_read_csv path o).
Proof. apply eq_preserves; [apply _|apply pd_read_csv_eq]. Qed.

Lemma cached_dataset_load_within url md5 dataset_name train_file test_file header :
  preserves (requests_within (take 1 (iter (urls_of url))))
    (_cached_dataset_load url md5 dataset_name train_file test_file header).
Proof.
  unfold _cached_dataset_load, _get_cache_path.
  apply within_bind_l; [|intros cache].
  { apply preserves_bind; [apply _| |intros d; by apply preserves_ret, _].
    apply eq_preserves; [apply _|apply os_getcwd_eq]. }
  apply within_bind_l; [by apply preserves_gets, _|intros have_train].
  apply within_bind_l; [|intros have_both].
  { destruct have_train; [by apply preserves_gets, _|by apply preserves_ret, _]. }
  apply within_bind_r; [|intros _].
  - destruct have_both; simpl negb; cbv iota.
    { intros w. by apply requests_within_same. }
    apply within_bind_l; [apply ensure_dir_exists_same_requests|intros _].
    apply within_bind_l; [apply tempfile_mkstemp_same_requests|intros file_path].
    apply within_try_finally; [|apply os_remove_same_requests].
    apply within_bind_r; [apply cached_download_within|intros _].
    apply extract_same_requests.
  - apply preserves_bind; [apply _|apply pd_read_csv_same_requests|intros train].
    apply preserves_bind; [apply _|apply pd_read_csv_same_requests|intros test].
    by apply preserves_ret, _.
Qed.

(** X13.  A call of [_cached_dataset_load], whatever its outcome, makes no
    request at all or exactly one, and that one goes to the first mirror:
    no other URL is ever contacted. *)
Theorem cached_dataset_load_at_most_one_request
    url md5 dataset_name train_file test_file header w :
  let w' := (_cached_dataset_load url md5 dataset_name train_file test_file header w).2 in
  requests w' = requests w ∨
  ∃ u rest, iter (urls_of url) = u :: rest ∧ requests w' = (requests w ++ [u])%list.
Proof.
  intros w'.
  destruct (cached_dataset_load_within url md5 dataset_name train_file test_file
              header w) as (l & Hl & Hs).
  fold w' in Hl. destruct (iter (urls_of url)) as [|u rest]; simpl in Hs.
  - apply sublist_nil_r in Hs as ->. left. by rewrite app_nil_r in Hl.
  - destruct l as [|x l].
    + left. by rewrite app_nil_r in Hl.
    + right. exists u, rest. split; [done|].
      apply sublist_cons_l in Hs as (k1 & k2 & Hk & Hs').
      destruct k1 as [|y k1]; [|by destruct k1].
      injection Hk as <- <-. apply sublist_nil_r in Hs' as ->. done.
Qed.

Lemma adult_within :
  preserves (requests_within
               ["https://proxy.sandbox.yandex-team.ru/779118052";
                "https://proxy.sandbox.yandex-team.ru/779120000"]) adult.
Proof.
  unfold adult. apply within_bind_r; [|intros [train_df test_df]].
  - unfold adult_load, _get_cache_path.
    apply within_bind_l; [|intros cache].
    { apply preserves_bind; [apply _| |intros d; by apply preserves_ret, _].
      apply eq_preserves; [apply _|apply os_getcwd_eq]. }
    apply within_bind_l; [apply ensure_dir_exists_same_requests|intros _].
    apply (within_bind ["https://proxy.sandbox.yandex-team.ru/779118052"]
             ["https://proxy.sandbox.yandex-team.ru/779120000"]);
      [apply (cached_download_within (UTuple adult_train_urls))|intros _].
    apply within_bind_r;
      [apply (cached_download_within (UTuple adult_test_urls))|intros _].
    apply preserves_bind; [apply _|apply pd_read_csv_same_requests|intros train].
    apply preserves_bind; [apply _|apply pd_read_csv_same_requests|intros test].
    apply preserves_bind; [apply _| |intros train'].
    { apply eq_preserves; [apply _|apply df_astype_eq]. }
    apply preserves_bind; [apply _| |intros test'].
    { apply eq_preserves; [apply _|apply df_astype_eq]. }
    by apply preserves_ret, _.
  - apply preserves_bind; [apply _| |intros income].
    { apply eq_preserves; [apply _|apply df_getattr_eq]. }
    apply preserves_bind; [apply _| |intros test'].
    { apply eq_preserves; [apply _|apply adult_fix_income_eq]. }
    by apply preserves_ret, _.
Qed.

(** X14.  Whatever its outcome, [adult] requests nothing but the first
    mirror of each part, each at most once and the train part first: the
    second mirrors, the public archive, are never contacted. *)
Theorem adult_requests_first_mirrors_only w :
  ∃ l, requests (adult w).2 = (requests w ++ l)%list ∧
       sublist l ["https://proxy.sandbox.yandex-team.ru/779118052";
                  "https://proxy.sandbox.yandex-team.ru/779120000"] ∧
       ("https://archive.ics.uci.edu/ml/machine-learning-databases/adult/adult.data" ∉ l) ∧
       ("https://archive.ics.uci.edu/ml/machine-learning-databases/adult/adult.test" ∉ l).
Proof.
  destruct (adult_within w) as (l & Hl & Hs). exists l. split_and!; [done|done|..].
  - intros Hin. apply (sublist_subseteq _ _ Hs) in Hin.
    apply elem_of_cons in Hin as [Hin|Hin]; [done|].
    apply elem_of_cons in Hin as [Hin|Hin]; [done|]. by apply elem_of_nil in Hin.
  - intros Hin. apply (sublist_subseteq _ _ Hs) in Hin.
    apply elem_of_cons in Hin as [Hin|Hin]; [done|].
    apply elem_of_cons in Hin as [Hin|Hin]; [done|]. by apply elem_of_nil in Hin.
Qed.

End requests_more.

(** ** [_cached_dataset_load]: errors and the working directory *)

#[global] Instance same_cwd_modes_preorder : PreOrder same_cwd_modes.
Proof.
  split; [by intros w|].
  intros w1 w2 w3 [Hc Hm] [Hc' Hm']. split; congruence.
Qed.










Section loader_more.
Context `{Extern}.








End loader_more.

(** ** The further statements at concrete worlds *)

Lemma calc_md5_whole_file_witness :
  _calc_md5 (H := demo_extern) "catboost_cached_datasets/adult/train.csv"
    adult_cached_world =
    (Ok "5d7c39d7b8804f071cdd1f2a7c460872", adult_cached_world) ∧
  ∃ e, _calc_md5 (H := demo_extern) "nothing.csv" adult_cached_world =
         (Raise e, adult_cached_world) ∧ isinstance e OSError = true.
Proof.
  split.
  - apply (proj1 (calc_md5_whole_file (H := demo_extern)
                    "catboost_cached_datasets/adult/train.csv" adult_cached_world)
             demo_train_part).
    vm_compute. reflexivity.
  - apply (proj2 (calc_md5_whole_file (H := demo_extern) "nothing.csv"
                    adult_cached_world)).
    intros data Hf. vm_compute in Hf. discriminate.
Defined.

Lemma stale_world_not_valid body md5 :
  md5 ≠ "md5-of-half a download" →
  ¬ valid_at (H := demo_extern) "/home/user/d.tgz" md5
      (stale_world "/home/user/d.tgz" body).
Proof.
  intros Hne (data & Hf & Hm). vm_compute in Hf. injection Hf as <-.
  vm_compute in Hm. by subst md5.
Defined.

Lemma cached_download_one_request_witness :
  requests (_cached_download (H := demo_extern)
              (UList ["https://a.example/d.tgz"; "https://b.example/d.tgz"])
              "0123" "/home/user/d.tgz"
              (stale_world "/home/user/d.tgz" "corrupt")).2
  = ["https://a.example/d.tgz"].
Proof.
  apply (cached_download_one_request (H := demo_extern)
           (UList ["https://a.example/d.tgz"; "https://b.example/d.tgz"])
           "0123" "/home/user/d.tgz" (stale_world "/home/user/d.tgz" "corrupt")
           "https://a.example/d.tgz" ["https://b.example/d.tgz"]).
  - apply stale_world_not_valid. discriminate.
  - reflexivity.
Defined.

Lemma cached_download_fetches_witness :
  let w := stale_world "/home/user/d.tgz" "payload" in
  (_cached_download (H := demo_extern) (UStr "https://a.example/d.tgz")
     "md5-of-payload" "/home/user/d.tgz" w).1 = Ok tt ∧
  fs (_cached_download (H := demo_extern) (UStr "https://a.example/d.tgz")
        "md5-of-payload" "/home/user/d.tgz" w).2 !! "/home/user/d.tgz"
  = Some (File "payload").
Proof.
  intros w.
  assert (Hstale : ¬ valid_at (H := demo_extern) "/home/user/d.tgz" "md5-of-payload" w).
  { apply stale_world_not_valid. discriminate. }
  assert (Hdst : fs w !! resolve w "/home/user/d.tgz" ≠ Some Dir).
  { vm_compute. discriminate. }
  destruct (cached_download_fetches (H := demo_extern)
              (UStr "https://a.example/d.tgz") "md5-of-payload" "/home/user/d.tgz"
              w "https://a.example/d.tgz" [] "payload"
              Hstale eq_refl eq_refl Hdst eq_refl) as (Hrun & _ & _).
  rewrite Hrun. split; [reflexivity|]. vm_compute. reflexivity.
Defined.

Lemma cached_download_no_mirrors_witness :
  let w := stale_world "/home/user/d.tgz" "payload" in
  _cached_download (H := demo_extern) (UList []) "md5-of-payload" "/home/user/d.tgz" w
  = (Raise (Exn RuntimeError [PStr "failed to download from %s"; PList []]), w).
Proof.
  intros w.
  apply (cached_download_no_mirrors (H := demo_extern) (UList []) "md5-of-payload"
           "/home/user/d.tgz" w).
  - apply stale_world_not_valid. discriminate.
  - reflexivity.
Defined.

Lemma cached_download_touches_only_destination_witness :
  let w := stale_world "/home/user/d.tgz" "payload" in
  let after := (_cached_download (H := demo_extern) (UStr "https://a.example/d.tgz")
                  "md5-of-payload" "/home/user/d.tgz" w).2 in
  fs after !! "/home/user/d.tgz" = Some (File "payload") ∧
  fs after !! "/home/user" = fs w !! "/home/user" ∧
  ∃ d, fs after !! "/home/user/d.tgz" = Some (File d).
Proof.
  intros w after. split; [vm_compute; reflexivity|].
  destruct (cached_download_touches_only_destination (H := demo_extern)
              (UStr "https://a.example/d.tgz") "md5-of-payload" "/home/user/d.tgz" w)
    as (Hother & _ & _ & Hfile).
  split.
  - apply Hother. vm_compute. discriminate.
  - apply (Hfile "half a download"). vm_compute. reflexivity.
Defined.


Lemma extract_into_missing_dir_witness :
  ∃ e, _extract (H := demo_extern) "/home/user/t.tgz" "nowhere" archive_world =
         (Raise e, archive_world) ∧ isinstance e OSError = true.
Proof.
  apply (extract_into_missing_dir (H := demo_extern)).
  vm_compute. discriminate.
Defined.

Lemma ensure_dir_exists_file_and_again_witness :
  _ensure_dir_exists "/home/user/catboost_cached_datasets/adult/train.csv"
    adult_cached_world =
    (Raise (os_error "File exists"
              "/home/user/catboost_cached_datasets/adult/train.csv"),
     adult_cached_world) ∧
  let w := demo_world no_mirror in
  let w' := (_ensure_dir_exists "cache/deep" w).2 in
  fs w' !! "/home/user/cache" = Some Dir ∧
  fs w' !! "/home/user/cache/deep" = Some Dir ∧
  fs w' !! "/tmp" = fs w !! "/tmp" ∧
  _ensure_dir_exists "cache/deep" w' = (Ok tt, w').
Proof.
  split.
  - apply (proj1 (ensure_dir_exists_file_and_again
                    "/home/user/catboost_cached_datasets/adult/train.csv"
                    adult_cached_world) demo_train_part).
    vm_compute. reflexivity.
  - intros w w'. split; [vm_compute; reflexivity|]. split; [vm_compute; reflexivity|].
    assert (Hrun : _ensure_dir_exists "cache/deep" w = (Ok tt, w'))
      by (vm_compute; reflexivity).
    destruct (proj2 (ensure_dir_exists_file_and_again "cache/deep" w) w' Hrun)
      as [Hframe Hagain].
    split; [|exact Hagain]. apply Hframe.
    + vm_compute. discriminate.
    + intros Hin. vm_compute in Hin.
      repeat (apply elem_of_cons in Hin as [Hin|Hin]; [discriminate|]).
      by apply elem_of_nil in Hin.
Defined.

Lemma adult_schema_witness :
  let run := adult (H := demo_extern) adult_cached_world in
  ∃ train_df test_df,
    run = (Ok (train_df, test_df), run.2) ∧
    length train_df = 15 ∧ length test_df = 15.
Proof.
  intros run.
  destruct run as [[[train_df test_df]|e] w'] eqn:Hrun;
    [|exfalso; apply (f_equal fst) in Hrun; vm_compute in Hrun; discriminate].
  exists train_df, test_df. split; [reflexivity|].
  destruct (adult_schema (H := demo_extern) adult_cached_world train_df test_df w' Hrun)
    as (_ & _ & Htrain & Htest & _).
  split; [exact Htrain|exact Htest].
Defined.

Lemma adult_missing_label_raises_witness :
  ∃ e, (adult (H := unlabelled_extern) adult_unlabelled_world).1 = Raise e ∧
       exn_cls e = TypeError.
Proof.
  destruct (adult_load (H := unlabelled_extern) adult_unlabelled_world)
    as [[[tr te]|e] w1] eqn:Hload;
    [|exfalso; apply (f_equal fst) in Hload; vm_compute in Hload; discriminate].
  assert (Hcol : df_column "income" te = Some [CStr "<=50K."; CNaN]).
  { apply (f_equal (λ r, match r.1 with
                         | Ok (_, te) => df_column "income" te
                         | Raise _ => None
                         end)) in Hload.
    vm_compute in Hload. symmetry. exact Hload. }
  destruct (adult_missing_label_raises (H := unlabelled_extern)
              adult_unlabelled_world tr te w1 [CStr "<=50K."; CNaN] CNaN Hload Hcol)
    as (e & Hrun & He).
  - apply elem_of_cons. right. apply elem_of_cons. by left.
  - intros s. discriminate.
  - exists e. rewrite Hrun. split; [reflexivity|exact He].
Defined.

Lemma adult_valid_cache_no_network_witness :
  (adult (H := demo_extern) adult_cached_world).2 = adult_cached_world.
Proof.
  apply (adult_valid_cache_no_network (H := demo_extern) adult_cached_world).
  - vm_compute. reflexivity.
  - vm_compute. reflexivity.
  - exists demo_train_part. split; vm_compute; reflexivity.
  - exists demo_test_part. split; vm_compute; reflexivity.
Defined.


